(** * VoiceFlow: capture, classification, PCM encoding and the push-to-talk
      session controller

A shallow embedding of the TypeScript sources

- [audio/audioRecorder.ts]   (class [AudioRecorder])
- [services/deepgramService.ts] (class [DeepgramService])
- [hooks/usePushToTalk.ts]   (the session controller hook)
- [App.tsx]                  (only [toggleRecording], the caller of
                              the controller's commands)

Conventions of the embedding.

- JavaScript numbers are modelled by exact rationals ([Q]).  Every
  finite Float32 sample is a dyadic rational with a 24-bit significand,
  so the products [s * 0x7FFF] and [s * 0x8000] of the encoder are exact
  in double precision and the model of the encoder is exact.  In the
  analyser the rounding of double arithmetic is not modelled, and
  [Math.sqrt] is a parameter.  The one place where the source can
  produce [NaN] (a frame of length 0) is modelled by [option].
- Strings are [string]; white space is the ASCII white space of the
  regular expression class [\s].
- The platform (microphone, Web Audio graph, WebSocket, timers, clock,
  clipboard) is modelled by explicit state and by outcome parameters of
  the awaited calls. *)

From Stdlib Require Import ZArith QArith Qround Qminmax List String Ascii Bool Lia Lqa.
Import ListNotations.

Local Open Scope Z_scope.

(* ===================================================================== *)
(** * JavaScript primitives used by the sources                           *)
(* ===================================================================== *)

Module JS.

(** [Math.min(a, b)] and [Math.max(a, b)] on finite numbers: one of the
    two arguments is returned. *)
Definition Math_min (a b : Q) : Q := if Qle_bool a b then a else b.
Definition Math_max (a b : Q) : Q := if Qle_bool a b then b else a.

(** [Math.round(x)]: the integer nearest to [x], ties towards
    [+Infinity], that is [floor (x + 1/2)]. *)
Definition Math_round (x : Q) : Z := Qfloor (x + (1 # 2)).

(** [Math.floor(x)]. *)
Definition Math_floor (x : Q) : Z := Qfloor x.

(** Truncation towards zero, the first step of the typed-array
    conversions (ECMAScript [ToIntegerOrInfinity]). *)
Definition truncate (x : Q) : Z := Z.quot (Qnum x) (Zpos (Qden x)).

(** [ToInt16]: truncate, reduce modulo [2^16], and read the result as a
    signed 16-bit integer.  This is what storing a number into an
    [Int16Array] element does. *)
Definition ToInt16 (x : Q) : Z :=
  let int16bit := (truncate x) mod 65536 in
  if 32768 <=? int16bit then int16bit - 65536 else int16bit.

(** [x < y] on finite numbers. *)
Definition lt (x y : Q) : bool := negb (Qle_bool y x).

End JS.

(* ===================================================================== *)
(** * [AudioRecorder.floatTo16BitPCM]                                     *)
(* ===================================================================== *)

(** The body of the loop of [floatTo16BitPCM] for one sample [input[i]]:
<<
    const s = Math.max(-1, Math.min(1, input[i]));
    output[i] = s < 0 ? s * 0x8000 : s * 0x7FFF;
>>
    [output] is an [Int16Array], so the store converts with [ToInt16]. *)
Definition pcm16 (sample : Q) : Z :=
  let s := JS.Math_max (-1) (JS.Math_min 1 sample) in
  JS.ToInt16 (if JS.lt s 0 then s * 32768 else s * 32767).

(** [floatTo16BitPCM(input)]: the output array has the length of the input
    and holds the conversion of each sample at the same index. *)
Definition floatTo16BitPCM (input : list Q) : list Z := map pcm16 input.

(** The conversion as the specification words it: round to nearest, after
    clamping to [[-1, 1]]. *)
Definition pcm16_rounding (sample : Q) : Z :=
  let s := JS.Math_max (-1) (JS.Math_min 1 sample) in
  if JS.lt s 0 then JS.Math_round (s * 32768) else JS.Math_round (s * 32767).

(* ===================================================================== *)
(** * The platform                                                        *)
(* ===================================================================== *)

(** What the code does to the platform, in the order it does it. *)
Inductive Effect : Type :=
| getUserMedia (deviceId : option string) (granted : bool)
| tracks_stop                     (* [getTracks().forEach(track => track.stop())] *)
| processor_disconnect
| input_disconnect
| audioContext_close
| new_WebSocket (sampleRate : Z)
| socket_onopen                   (* the handshake succeeded *)
| socket_onerror                  (* the handshake failed *)
| socket_dropped                  (* an open socket was closed by the other side *)
| socket_send_audio (data : list Z)
| socket_send_CloseStream
| socket_close
| setInterval (id : positive)
| clearInterval (id : positive)
| copyToClipboard (text : string)
| window_alert
| console_error.

(** The result of an awaited call: a value, or a thrown error with its
    [message]. *)
Inductive Result (A : Type) : Type :=
| Ok (value : A)
| Throw (message : string).
Arguments Ok {A} value.
Arguments Throw {A} message.

(** How [navigator.mediaDevices.getUserMedia] answers. *)
Inductive MediaOutcome : Type :=
| granted (sampleRate : Z)
| denied (message : string).

(** How the WebSocket handshake ends: [onopen], or [onerror]. *)
Inductive SocketOutcome : Type := opened | failed.

(** Capture handles held on the hardware after a sequence of effects:
    granted [getUserMedia] calls not yet followed by a stop of the tracks. *)
Definition captureStep (held : nat) (e : Effect) : nat :=
  match e with
  | getUserMedia _ true => S held
  | tracks_stop => pred held
  | _ => held
  end.

Definition liveCaptures (log : list Effect) : nat := fold_left captureStep log 0%nat.

(** Sockets that are open after a sequence of effects: handshakes that
    succeeded, not yet closed from either side. *)
Definition socketStep (held : nat) (e : Effect) : nat :=
  match e with
  | socket_onopen => S held
  | socket_close | socket_dropped => pred held
  | _ => held
  end.

Definition liveSockets (log : list Effect) : nat := fold_left socketStep log 0%nat.

(** Whether the timer [id] is running after a sequence of effects. *)
Definition timerStep (id : positive) (running : bool) (e : Effect) : bool :=
  match e with
  | setInterval i => running || Pos.eqb i id
  | clearInterval i => running && negb (Pos.eqb i id)
  | _ => running
  end.

Definition timerRunning (id : positive) (log : list Effect) : bool :=
  fold_left (timerStep id) log false.

(* ===================================================================== *)
(** * [AudioRecorder.analyzeAudio] and the capture callback               *)
(* ===================================================================== *)

Inductive AudioAnalysisStatus : Set := speech | music_noise | silence | unknown.

Module AudioRecorder.

(** What the recorder hands to the outside: the callbacks given to its
    constructor, and the console. *)
Inductive Callback : Type :=
| onVolumeChange (vol : option Z)          (* [None] is [NaN] *)
| onStatusChange (status : AudioAnalysisStatus)
| onDataAvailable (data : list Z)
| console_log
| console_warn.

(** The fields of the class.  The four nodes of the audio graph and the
    stream are handles: only whether they are [null] matters.  The two
    optional constructor arguments are recorded by whether they were
    given. *)
Record t : Type := mk {
  mediaStream : bool;
  audioContext : bool;
  processor : bool;
  input : bool;
  analyser : bool;
  source : bool;
  debugCounter : Z;
  lastStatus : AudioAnalysisStatus;
  hasStatusChange : bool;
  hasVolumeChange : bool
}.

(** [new AudioRecorder(onDataAvailable, onSilenceTimeout, onStatusChange?,
    onVolumeChange?)]. *)
Definition new (withStatus withVolume : bool) : t :=
  mk false false false false false false 0 unknown withStatus withVolume.

(** [private silenceThreshold = 0.005]; never assigned afterwards. *)
Definition silenceThreshold : Q := 5 # 1000.

(** [Math.min(100, Math.round(rms * 400))]. *)
Definition volumeLevel (rms : Q) : Z := Z.min 100 (JS.Math_round (rms * 400)).

(** The first loop: [sumSquares += inputData[i] * inputData[i]]. *)
Definition sumSquares (inputData : list Q) : Q :=
  fold_left (fun acc x => acc + x * x)%Q inputData 0%Q.

(** The spectrum loop, [i] running over the bins:
    [weightedSum += i * dataArray[i]; totalWeight += dataArray[i]]. *)
Fixpoint spectrumSums (i : Z) (dataArray : list Z) (weightedSum totalWeight : Z)
  : Z * Z :=
  match dataArray with
  | [] => (weightedSum, totalWeight)
  | d :: rest => spectrumSums (i + 1) rest (weightedSum + i * d) (totalWeight + d)
  end.

(** [totalWeight > 0 ? weightedSum / totalWeight : 0]. *)
Definition centroidOf (dataArray : list Z) : Q :=
  let '(weightedSum, totalWeight) := spectrumSums 0 dataArray 0 0 in
  if 0 <? totalWeight then (inject_Z weightedSum / inject_Z totalWeight)%Q else 0%Q.

(** The total energy of a spectrum snapshot: the [totalWeight] of the
    loop. *)
Definition totalEnergy (dataArray : list Z) : Z := snd (spectrumSums 0 dataArray 0 0).

(** The test of the zero-crossing loop on [inputData[i - 1]] and
    [inputData[i]]. *)
Definition crosses (prev cur : Q) : bool :=
  (Qle_bool 0 cur && JS.lt prev 0) || (JS.lt cur 0 && Qle_bool 0 prev).

(** The zero-crossing loop, from [i = 1]. *)
Fixpoint crossingsFrom (prev : Q) (rest : list Q) : Z :=
  match rest with
  | [] => 0
  | cur :: rest' => (if crosses prev cur then 1 else 0) + crossingsFrom cur rest'
  end.

Definition zeroCrossings (inputData : list Q) : Z :=
  match inputData with
  | [] => 0
  | first :: rest => crossingsFrom first rest
  end.

(** Division by [inputData.length]; a frame of length 0 gives [0 / 0],
    that is [NaN], here [None]. *)
Definition perSample (x : Q) (inputData : list Q) : option Q :=
  match inputData with
  | [] => None
  | _ => Some (x / inject_Z (Z.of_nat (List.length inputData)))%Q
  end.

(** Comparisons with a possibly-[NaN] left operand: [NaN] compares
    false. *)
Definition nan_lt (x : option Q) (y : Q) : bool :=
  match x with Some v => JS.lt v y | None => false end.
Definition nan_gt (x : option Q) (y : Q) : bool :=
  match x with Some v => JS.lt y v | None => false end.

(** [stop()]: each handle that is not [null] is released and set to
    [null]; [analyser] and [source] are left as they are. *)
Definition stop (this : t) : t * list Effect :=
  (mk false false false false (analyser this) (source this)
      (debugCounter this) (lastStatus this) (hasStatusChange this) (hasVolumeChange this),
   (if mediaStream this then [tracks_stop] else [])
     ++ (if processor this then [processor_disconnect] else [])
     ++ (if input this then [input_disconnect] else [])
     ++ (if audioContext this then [audioContext_close] else [])).

(** [start(deviceId)]: a stream still held is released first; then the
    microphone is requested.  When it is granted the audio graph is built
    and the sample rate of the context returned; when it is denied the
    error is logged and thrown again. *)
Definition start (deviceId : string) (outcome : MediaOutcome) (this : t)
  : Result Z * t * list Effect :=
  let '(this1, released) := if mediaStream this then stop this else (this, []) in
  let constraint := if (deviceId =? "")%string then None else Some deviceId in
  match outcome with
  | granted sampleRate =>
      (Ok sampleRate,
       mk true true true (input this1) true true
          (debugCounter this1) (lastStatus this1)
          (hasStatusChange this1) (hasVolumeChange this1),
       released ++ [getUserMedia constraint true])
  | denied message =>
      (Throw message, this1, released ++ [getUserMedia constraint false; console_error])
  end.

Section WithSqrt.

(** [Math.sqrt] on a non-negative finite number. *)
Variable Math_sqrt : Q -> Q.

(** [Math.sqrt(sumSquares / inputData.length)]. *)
Definition rmsOf (inputData : list Q) : option Q :=
  option_map Math_sqrt (perSample (sumSquares inputData) inputData).

(** [analyzeAudio(inputData)].  [dataArray] is what
    [analyser.getByteFrequencyData] writes at this call; it is read only
    when the analyser exists and the frame is not silent.  The result is
    the returned status, the recorder after the call and the callbacks
    and console lines of the call, in order. *)
Definition analyzeAudio (dataArray : list Z) (inputData : list Q) (this : t)
  : AudioAnalysisStatus * t * list Callback :=
  let rms := rmsOf inputData in
  let emitted :=
    if hasVolumeChange this then [onVolumeChange (option_map volumeLevel rms)] else [] in
  if nan_lt rms silenceThreshold then (silence, this, emitted)
  else
    let setStatus (r : t) (s : AudioAnalysisStatus) : t :=
      mk (mediaStream r) (audioContext r) (processor r) (input r) (analyser r)
         (source r) (debugCounter r) s (hasStatusChange r) (hasVolumeChange r) in
    if analyser this then
      let centroid := centroidOf dataArray in
      let zcrRatio := perSample (inject_Z (zeroCrossings inputData)) inputData in
      let counter := debugCounter this + 1 in
      let this1 :=
        mk (mediaStream this) (audioContext this) (processor this) (input this)
           (analyser this) (source this) counter (lastStatus this)
           (hasStatusChange this) (hasVolumeChange this) in
      let logged := if counter mod 50 =? 0 then [console_log] else [] in
      if JS.lt 60 centroid && nan_gt zcrRatio (3 # 10) then
        let warned := if counter mod 50 =? 0 then [console_warn] else [] in
        (music_noise, setStatus this1 music_noise, emitted ++ logged ++ warned)
      else (speech, setStatus this1 speech, emitted ++ logged)
    else (speech, setStatus this speech, emitted).

(** The [onaudioprocess] handler installed by [start]: classify, report
    the status, encode, hand the chunk over. *)
Definition onaudioprocess (dataArray : list Z) (inputData : list Q) (this : t)
  : t * list Callback :=
  let '(status, this', emitted) := analyzeAudio dataArray inputData this in
  (this',
   emitted
     ++ (if hasStatusChange this' then [onStatusChange status] else [])
     ++ [onDataAvailable (floatTo16BitPCM inputData)]).

End WithSqrt.


(** A computable square root to 53 binary places, exact on the squares of
    dyadic rationals of at most 53 binary places: an instance of
    [Math_sqrt] to run the classifier on concrete frames. *)
Definition sqrt53 (x : Q) : Q :=
  Z.sqrt ((Qnum x * 4 ^ 53) / Zpos (Qden x)) # (2 ^ 53).

End AudioRecorder.

(* ===================================================================== *)
(** * [DeepgramService]                                                   *)
(* ===================================================================== *)

(** Values produced by [JSON.parse]. *)
Module Json.

#[warnings="-register-all"] Inductive value : Type :=
| null
| boolean (b : bool)
| number (q : Q)
| str (s : string)
| array (items : list value)
| object (members : list (string * value)).

(** Truthiness, as [if] and [&&] test it. *)
Definition truthy (v : value) : bool :=
  match v with
  | null => false
  | boolean b => b
  | number q => negb (Qeq_bool q 0)
  | str s => negb (s =? "")%string
  | array _ | object _ => true
  end.

(** Truthiness of the result of a property read; [None] is
    [undefined]. *)
Definition truthy' (v : option value) : bool :=
  match v with Some x => truthy x | None => false end.

Fixpoint lookup (key : string) (members : list (string * value)) : option value :=
  match members with
  | [] => None
  | (k, v) :: rest => if (k =? key)%string then Some v else lookup key rest
  end.

(** [v.key] for a [v] that is neither [null] nor [undefined], and a key
    that names no built-in property ([channel], [alternatives],
    [transcript], [is_final]): the member of an object, [undefined] on
    anything else. *)
Definition get (key : string) (v : value) : option value :=
  match v with
  | object members => lookup key members
  | _ => None
  end.

(** [v[0]] for a [v] that is neither [null] nor [undefined]. *)
Definition first (v : value) : option value :=
  match v with
  | array (x :: _) => Some x
  | str (String c _) => Some (str (String c EmptyString))
  | object members => lookup "0" members
  | _ => None
  end.

End Json.

Module DeepgramService.

(** [WebSocket.readyState]. *)
Inductive ReadyState : Set := CONNECTING | OPEN | CLOSING | CLOSED.

(** The fields of the class; the two callbacks are fixed by the
    constructor and appear as [Call]s. *)
Record t : Type := mk {
  socket : option ReadyState;
  apiKey : string
}.

(** Calls the service makes to its owner, and the console. *)
Inductive Call : Type :=
| onTranscript (transcript : Json.value) (is_final : option Json.value)
| onError (error : string)
| console_error_parsing.

Definition new (key : string) : t := mk None key.

(** [isConnected()]. *)
Definition isConnected (this : t) : bool :=
  match socket this with Some OPEN => true | _ => false end.

(** [connect(sampleRate)], with the way the handshake ends. *)
Definition connect (sampleRate : Z) (outcome : SocketOutcome) (this : t)
  : Result unit * t * list Effect * list Call :=
  if (apiKey this =? "")%string then
    (Throw "Missing Deepgram API Key"%string, this, [], [])
  else
    match outcome with
    | opened =>
        (Ok tt, mk (Some OPEN) (apiKey this), [new_WebSocket sampleRate; socket_onopen], [])
    | failed =>
        (Throw "WebSocket connection failed"%string,
         mk (Some CLOSED) (apiKey this),
         [new_WebSocket sampleRate; socket_onerror; console_error],
         [onError "WebSocket connection error"%string])
    end.

(** The [onmessage] handler.  [data] is the result of [JSON.parse], [None]
    when it throws. *)
Definition onmessage (data : option Json.value) : list Call :=
  match data with
  | None => [console_error_parsing]
  | Some Json.null => [console_error_parsing]     (* [data.channel] throws *)
  | Some data =>
      let channel := Json.get "channel" data in
      let alternatives :=
        match channel with Some c => if Json.truthy c then Json.get "alternatives" c else None
                      | None => None end in
      let alt :=
        match alternatives with Some a => if Json.truthy a then Json.first a else None
                           | None => None end in
      match alt with
      | Some alt =>
          if Json.truthy alt then
            match Json.get "transcript" alt with
            | Some transcript =>
                if Json.truthy transcript
                then [onTranscript transcript (Json.get "is_final" data)]
                else []
            | None => []
            end
          else []
      | None => []
      end
  end.

(** [sendAudio(data)]. *)
Definition sendAudio (data : list Z) (this : t) : list Effect :=
  if isConnected this then [socket_send_audio data] else [].

(** [disconnect()]. *)
Definition disconnect (this : t) : t * list Effect :=
  match socket this with
  | Some state =>
      (mk None (apiKey this),
       match state with OPEN => [socket_send_CloseStream; socket_close] | _ => [] end)
  | None => (this, [])
  end.

End DeepgramService.

(* ===================================================================== *)
(** * String operations of the controller                                 *)
(* ===================================================================== *)

Module Str.

Local Open Scope string_scope.

(** The characters matched by [\s] and removed by [trim], within ASCII:
    tab, line feed, vertical tab, form feed, carriage return, space. *)
Definition isSpace (c : ascii) : bool :=
  let n := nat_of_ascii c in
  ((9 <=? n) && (n <=? 13))%nat || (n =? 32)%nat.

(** A string is truthy when it is not empty. *)
Definition truthy (s : string) : bool := negb (s =? "").

Fixpoint trimStart (s : string) : string :=
  match s with
  | String c rest => if isSpace c then trimStart rest else s
  | EmptyString => EmptyString
  end.

Fixpoint trimEnd (s : string) : string :=
  match s with
  | String c rest =>
      match trimEnd rest with
      | EmptyString => if isSpace c then EmptyString else String c EmptyString
      | kept => String c kept
      end
  | EmptyString => EmptyString
  end.

(** [s.trim()]. *)
Definition trim (s : string) : string := trimEnd (trimStart s).

(** [s.split(/\s+/)]: [piece] is the piece being read, [inGap] tells
    that the previous character was white space. *)
Fixpoint splitSpaces (s : string) (piece : string) (inGap : bool) : list string :=
  match s with
  | EmptyString => [piece]
  | String c rest =>
      if isSpace c then
        if inGap then splitSpaces rest piece true
        else piece :: splitSpaces rest "" true
      else splitSpaces rest (piece ++ String c "") false
  end.

(** [fullText.trim().split(/\s+/).filter(w => w.length > 0).length]. *)
Definition countWords (fullText : string) : nat :=
  List.length
    (filter (fun w => (0 <? String.length w)%nat) (splitSpaces (trim fullText) "" false)).

(** [toLowerCase] on ASCII letters. *)
Definition lowerChar (c : ascii) : ascii :=
  let n := nat_of_ascii c in
  if ((65 <=? n) && (n <=? 90))%nat then ascii_of_nat (n + 32) else c.

Fixpoint toLowerCase (s : string) : string :=
  match s with
  | String c rest => String (lowerChar c) (toLowerCase rest)
  | EmptyString => EmptyString
  end.

(** [s.includes(needle)]. *)
Fixpoint includes (needle s : string) : bool :=
  prefix needle s
  || match s with
     | String _ rest => includes needle rest
     | EmptyString => false
     end.

End Str.

(* ===================================================================== *)
(** * The controller state ([usePushToTalk])                              *)
(* ===================================================================== *)

Inductive ConnectionState : Set := disconnected | connecting | connected.

Module SessionRecord.

(** [id] is [Date.now().toString()]: it is kept as the number whose
    decimal writing it is.  [duration] is in seconds and not rounded. *)
Record t : Type := mk {
  id : Z;
  timestamp : Z;
  text : string;
  duration : Q;
  wordCount : nat
}.

End SessionRecord.

(** [PushToTalkState]. *)
Record PushToTalkState : Type := mkState {
  isRecording : bool;
  transcript : string;
  interimTranscript : string;
  error : option string;
  connectionState : ConnectionState;
  autoInsert : bool;
  history : list SessionRecord.t;
  statusMessage : option string;
  audioStatus : AudioAnalysisStatus;
  sessionDuration : Z;
  wordCount : nat;
  charCount : nat;
  volume : option Z
}.

(** The argument of [useState]. *)
Definition initialState : PushToTalkState :=
  mkState false "" "" None disconnected false [] None silence 0 0 0 (Some 0).

(** The hook instance: its state, the states it has had (most recent
    first), its refs, its prop and selection, and the platform: the timer
    identifiers handed out and everything done so far. *)
Record World : Type := mkWorld {
  state : PushToTalkState;
  rendered : list PushToTalkState;
  recorderRef : option AudioRecorder.t;
  deepgramRef : option DeepgramService.t;
  startTimeRef : Z;
  timerIntervalRef : option positive;
  apiKey : string;
  selectedDeviceId : string;
  nextTimer : positive;
  log : list Effect
}.

Definition initialWorld (key : string) : World :=
  mkWorld initialState [] None None 0 None key "" 1%positive [].

(** ** A state and exception monad over [World] *)

Definition Action (A : Type) : Type := World -> Result A * World.

Definition ret {A : Type} (a : A) : Action A := fun w => (Ok a, w).

Definition bind {A B : Type} (m : Action A) (k : A -> Action B) : Action B :=
  fun w =>
    match m w with
    | (Ok a, w') => k a w'
    | (Throw message, w') => (Throw message, w')
    end.

Declare Scope action_scope.
Delimit Scope action_scope with action.
Bind Scope action_scope with Action.
Notation "x <- m ;; k" := (bind m (fun x => k))
  (at level 61, m at next level, right associativity) : action_scope.
Notation "m ;; k" := (bind m (fun _ => k))
  (at level 61, right associativity) : action_scope.
Notation "' pat <- m ;; k" := (bind m (fun x => match x with pat => k end))
  (at level 61, pat pattern, m at next level, right associativity) : action_scope.

(** [throw], and [try { body } catch (err) { handler(err.message) }]. *)
Definition throw {A : Type} (message : string) : Action A := fun w => (Throw message, w).

Definition try (body : Action unit) (handler : string -> Action unit) : Action unit :=
  fun w =>
    match body w with
    | (Ok _, w') => (Ok tt, w')
    | (Throw message, w') => handler message w'
    end.

(** The world an action leaves. *)
Definition exec {A : Type} (m : Action A) (w : World) : World := snd (m w).

Definition read {A : Type} (f : World -> A) : Action A := fun w => (Ok (f w), w).

(** [setState(updater)]: the state before is kept in [rendered]. *)
Definition setState (updater : PushToTalkState -> PushToTalkState) : Action unit :=
  fun w =>
    (Ok tt,
     mkWorld (updater (state w)) (state w :: rendered w) (recorderRef w) (deepgramRef w)
             (startTimeRef w) (timerIntervalRef w) (apiKey w) (selectedDeviceId w)
             (nextTimer w) (log w)).

(** Effects on the platform are appended to the log. *)
Definition perform (effects : list Effect) : Action unit :=
  fun w =>
    (Ok tt,
     mkWorld (state w) (rendered w) (recorderRef w) (deepgramRef w)
             (startTimeRef w) (timerIntervalRef w) (apiKey w) (selectedDeviceId w)
             (nextTimer w) (log w ++ effects)).

Definition setRecorder (r : AudioRecorder.t) : Action unit :=
  fun w =>
    (Ok tt,
     mkWorld (state w) (rendered w) (Some r) (deepgramRef w)
             (startTimeRef w) (timerIntervalRef w) (apiKey w) (selectedDeviceId w)
             (nextTimer w) (log w)).

Definition setDeepgram (d : DeepgramService.t) : Action unit :=
  fun w =>
    (Ok tt,
     mkWorld (state w) (rendered w) (recorderRef w) (Some d)
             (startTimeRef w) (timerIntervalRef w) (apiKey w) (selectedDeviceId w)
             (nextTimer w) (log w)).

Definition setStartTime (now : Z) : Action unit :=
  fun w =>
    (Ok tt,
     mkWorld (state w) (rendered w) (recorderRef w) (deepgramRef w)
             now (timerIntervalRef w) (apiKey w) (selectedDeviceId w)
             (nextTimer w) (log w)).

Definition setTimerRef (timer : option positive) : Action unit :=
  fun w =>
    (Ok tt,
     mkWorld (state w) (rendered w) (recorderRef w) (deepgramRef w)
             (startTimeRef w) timer (apiKey w) (selectedDeviceId w)
             (nextTimer w) (log w)).

(** [window.setInterval(...)]: a fresh identifier. *)
Definition window_setInterval : Action positive :=
  fun w =>
    (Ok (nextTimer w),
     mkWorld (state w) (rendered w) (recorderRef w) (deepgramRef w)
             (startTimeRef w) (timerIntervalRef w) (apiKey w) (selectedDeviceId w)
             (Pos.succ (nextTimer w)) (log w ++ [setInterval (nextTimer w)])).

(** [if (timerIntervalRef.current) clearInterval(timerIntervalRef.current)]. *)
Definition clearTimerIfSet : Action unit :=
  fun w =>
    match timerIntervalRef w with
    | Some timer => perform [clearInterval timer] w
    | None => (Ok tt, w)
    end.

(* ===================================================================== *)
(** * The controller operations ([usePushToTalk])                         *)
(* ===================================================================== *)

Local Open Scope action_scope.
Local Open Scope string_scope.

(** ** The callbacks given to the two services *)

(** The updater of the transcript callback. *)
Definition transcriptUpdate (text : string) (isFinal : bool) (prev : PushToTalkState)
  : PushToTalkState :=
  let newTranscript :=
    if isFinal
    then (if Str.truthy (transcript prev) then transcript prev ++ " " ++ text else text)
    else transcript prev in
  let fullText := if isFinal then newTranscript else newTranscript ++ " " ++ text in
  let words := Str.countWords fullText in
  let chars := String.length fullText in
  if isFinal then
    mkState (isRecording prev) newTranscript "" (error prev) (connectionState prev)
            (autoInsert prev) (history prev) (statusMessage prev) (audioStatus prev)
            (sessionDuration prev) words chars (volume prev)
  else
    mkState (isRecording prev) (transcript prev) text (error prev) (connectionState prev)
            (autoInsert prev) (history prev) (statusMessage prev) (audioStatus prev)
            (sessionDuration prev) words chars (volume prev).

(** The updater of the two voice commands. *)
Definition clearByVoice (prev : PushToTalkState) : PushToTalkState :=
  mkState (isRecording prev) "" "" (error prev) (connectionState prev)
          (autoInsert prev) (history prev) (statusMessage prev) (audioStatus prev)
          (sessionDuration prev) 0 0 (volume prev).

Definition isVoiceCommand (text : string) : bool :=
  let lower := Str.trim (Str.toLowerCase text) in
  Str.includes "clear transcript" lower || Str.includes "delete everything" lower.

(** [(text, isFinal) => { ... }], the first callback of
    [new DeepgramService]. *)
Definition onTranscript (text : string) (isFinal : bool) : Action unit :=
  setState (transcriptUpdate text isFinal) ;;
  if isFinal && isVoiceCommand text then setState clearByVoice else ret tt.

(** [(err) => setState(prev => ({ ...prev, error: err }))]. *)
Definition onError (err : string) : Action unit :=
  setState (fun prev =>
    mkState (isRecording prev) (transcript prev) (interimTranscript prev) (Some err)
            (connectionState prev) (autoInsert prev) (history prev) (statusMessage prev)
            (audioStatus prev) (sessionDuration prev) (wordCount prev) (charCount prev)
            (volume prev)).

(** The four callbacks of [new AudioRecorder]. *)
Definition onData (data : list Z) : Action unit :=
  fun w =>
    match deepgramRef w with
    | Some deepgram => perform (DeepgramService.sendAudio data deepgram) w
    | None => (Ok tt, w)
    end.

Definition onSilenceTimeout : Action unit :=
  setState (fun prev =>
    mkState (isRecording prev) (transcript prev) (interimTranscript prev) (error prev)
            (connectionState prev) (autoInsert prev) (history prev)
            (Some "Paused due to silence")
            (audioStatus prev) (sessionDuration prev) (wordCount prev) (charCount prev)
            (volume prev)).

Definition onStatus (status : AudioAnalysisStatus) : Action unit :=
  setState (fun prev =>
    mkState (isRecording prev) (transcript prev) (interimTranscript prev) (error prev)
            (connectionState prev) (autoInsert prev) (history prev) (statusMessage prev)
            status (sessionDuration prev) (wordCount prev) (charCount prev)
            (volume prev)).

Definition onVolume (vol : option Z) : Action unit :=
  setState (fun prev =>
    mkState (isRecording prev) (transcript prev) (interimTranscript prev) (error prev)
            (connectionState prev) (autoInsert prev) (history prev) (statusMessage prev)
            (audioStatus prev) (sessionDuration prev) (wordCount prev) (charCount prev)
            vol).

(** ** [getServices] *)

(** Each service is created on first use and kept in its ref. *)
Definition getServices : Action (AudioRecorder.t * DeepgramService.t) :=
  fun w =>
    let deepgram :=
      match deepgramRef w with
      | Some d => d
      | None => DeepgramService.new (apiKey w)
      end in
    let recorder :=
      match recorderRef w with
      | Some r => r
      | None => AudioRecorder.new true true
      end in
    (Ok (recorder, deepgram),
     mkWorld (state w) (rendered w) (Some recorder) (Some deepgram)
             (startTimeRef w) (timerIntervalRef w) (apiKey w) (selectedDeviceId w)
             (nextTimer w) (log w)).

(** A method call on the recorder: the object behind [recorderRef] is
    replaced by the object after the call and the effects are logged. *)
Definition onRecorder {A : Type} (call : A * AudioRecorder.t * list Effect) : Action A :=
  let '(result, recorder, effects) := call in
  setRecorder recorder ;; perform effects ;; ret result.

(** The same for the transcription service, whose calls can also invoke
    the error callback. *)
Definition onDeepgram {A : Type}
  (call : A * DeepgramService.t * list Effect * list DeepgramService.Call) : Action A :=
  let '(result, deepgram, effects, calls) := call in
  setDeepgram deepgram ;;
  perform effects ;;
  fold_right
    (fun c rest =>
       match c with
       | DeepgramService.onError err => onError err ;; rest
       | _ => rest
       end)
    (ret tt) calls ;;
  ret result.

(** An awaited call that can reject. *)
Definition await {A : Type} (m : Action (Result A)) : Action A :=
  r <- m ;;
  match r with
  | Ok a => ret a
  | Throw message => throw message
  end.

(** ** [startRecording] *)

Definition beginSession (prev : PushToTalkState) : PushToTalkState :=
  mkState true "" (interimTranscript prev) None (connectionState prev)
          (autoInsert prev) (history prev) None (audioStatus prev)
          0 (wordCount prev) (charCount prev) (volume prev).

Definition setConnection (c : ConnectionState) (prev : PushToTalkState) : PushToTalkState :=
  mkState (isRecording prev) (transcript prev) (interimTranscript prev) (error prev) c
          (autoInsert prev) (history prev) (statusMessage prev) (audioStatus prev)
          (sessionDuration prev) (wordCount prev) (charCount prev) (volume prev).

(** The updater of the [catch] block; [err.message || 'Failed to start
    recording']. *)
Definition startFailed (message : string) (prev : PushToTalkState) : PushToTalkState :=
  mkState false (transcript prev) (interimTranscript prev)
          (Some (if Str.truthy message then message else "Failed to start recording"))
          disconnected
          (autoInsert prev) (history prev) (statusMessage prev) (audioStatus prev)
          (sessionDuration prev) (wordCount prev) (charCount prev) (volume prev).

(** [startRecording()].  [now] is what [Date.now()] reads; [media] and
    [conn] are the ways the two awaited calls end. *)
Definition startRecording (now : Z) (media : MediaOutcome) (conn : SocketOutcome)
  : Action unit :=
  setState beginSession ;;
  setStartTime now ;;
  clearTimerIfSet ;;
  timer <- window_setInterval ;;
  setTimerRef (Some timer) ;;
  try
    ('(recorder, deepgram) <- getServices ;;
     deviceId <- read selectedDeviceId ;;
     sampleRate <- await (onRecorder (AudioRecorder.start deviceId media recorder)) ;;
     if DeepgramService.isConnected deepgram then ret tt
     else
       setState (setConnection connecting) ;;
       await (onDeepgram (DeepgramService.connect sampleRate conn deepgram)) ;;
       setState (setConnection connected))
    (fun message =>
       perform [console_error] ;;
       setState (startFailed message) ;;
       clearTimerIfSet).

(** ** [handleStop] *)

(** [current.interimTranscript ? `${current.transcript}
    ${current.interimTranscript}` : current.transcript]. *)
Definition fullTextOf (current : PushToTalkState) : string :=
  if Str.truthy (interimTranscript current)
  then transcript current ++ " " ++ interimTranscript current
  else transcript current.

(** The record built by the updater. *)
Definition newRecord (now startTime : Z) (current : PushToTalkState) : SessionRecord.t :=
  SessionRecord.mk now now (Str.trim (fullTextOf current))
                   (inject_Z (now - startTime) / 1000)%Q
                   (Str.countWords (fullTextOf current)).

(** The state returned by the updater of [handleStop]; [reason || null]. *)
Definition stopUpdate (now startTime : Z) (reason : option string)
  (current : PushToTalkState) : PushToTalkState :=
  if negb (isRecording current) then current
  else
    mkState false (transcript current) "" (error current) disconnected
            (autoInsert current)
            (if Str.truthy (Str.trim (fullTextOf current))
             then newRecord now startTime current :: history current
             else history current)
            (match reason with
             | Some r => if Str.truthy r then Some r else None
             | None => None
             end)
            silence
            (sessionDuration current) (wordCount current) (charCount current)
            (volume current).

(** The call of [ClipboardService.copyToClipboard] made inside the
    updater. *)
Definition autoInsertEffect (current : PushToTalkState) : list Effect :=
  if isRecording current && autoInsert current
     && Str.truthy (Str.trim (fullTextOf current))
  then [copyToClipboard (Str.trim (fullTextOf current))]
  else [].

(** [handleStop(reason)]. *)
Definition handleStop (now : Z) (reason : option string) : Action unit :=
  clearTimerIfSet ;;
  (timer <- read timerIntervalRef ;;
   match timer with Some _ => setTimerRef None | None => ret tt end) ;;
  current <- read state ;;
  startTime <- read startTimeRef ;;
  perform (autoInsertEffect current) ;;
  setState (stopUpdate now startTime reason) ;;
  '(recorder, deepgram) <- getServices ;;
  onRecorder (tt, fst (AudioRecorder.stop recorder), snd (AudioRecorder.stop recorder)) ;;
  onDeepgram (tt, fst (DeepgramService.disconnect deepgram),
              snd (DeepgramService.disconnect deepgram), []).

Definition stopRecording (now : Z) : Action unit := handleStop now None.

(** ** The remaining commands and the timer *)

Definition toggleAutoInsert : Action unit :=
  setState (fun prev =>
    mkState (isRecording prev) (transcript prev) (interimTranscript prev) (error prev)
            (connectionState prev) (negb (autoInsert prev)) (history prev)
            (statusMessage prev) (audioStatus prev) (sessionDuration prev)
            (wordCount prev) (charCount prev) (volume prev)).

Definition clearTranscript : Action unit :=
  setState (fun prev =>
    mkState (isRecording prev) "" (interimTranscript prev) (error prev)
            (connectionState prev) (autoInsert prev) (history prev)
            (statusMessage prev) (audioStatus prev) 0 0 0 (volume prev)).

(** The callback of [setInterval]:
    [Math.floor((Date.now() - startTimeRef.current) / 1000)]. *)
Definition tick (now : Z) : Action unit :=
  startTime <- read startTimeRef ;;
  setState (fun prev =>
    mkState (isRecording prev) (transcript prev) (interimTranscript prev) (error prev)
            (connectionState prev) (autoInsert prev) (history prev)
            (statusMessage prev) (audioStatus prev)
            (JS.Math_floor (inject_Z (now - startTime) / 1000))
            (wordCount prev) (charCount prev) (volume prev)).

(** The [global-ptt-toggle] listener. *)
Definition handleGlobalToggle (now : Z) (media : MediaOutcome) (conn : SocketOutcome)
  : Action unit :=
  recorder <- read recorderRef ;;
  match recorder with
  | Some _ => handleStop now None
  | None => startRecording now media conn
  end.

(** [toggleRecording] of [App]. *)
Definition toggleRecording (now : Z) (media : MediaOutcome) (conn : SocketOutcome)
  : Action unit :=
  current <- read state ;;
  if isRecording current then stopRecording now
  else
    key <- read apiKey ;;
    if Str.truthy key then startRecording now media conn
    else perform [window_alert].

(* ===================================================================== *)
(** * Runs of the controller                                              *)
(* ===================================================================== *)

(** What can happen to a mounted hook.  Each event is handled to
    completion before the next one; the awaited calls of [startRecording]
    end the way the event says. *)
Inductive Event : Type :=
| click_record (now : Z) (media : MediaOutcome) (conn : SocketOutcome)
| global_ptt_toggle (now : Z) (media : MediaOutcome) (conn : SocketOutcome)
| click_clear
| click_autoInsert
| timer_fires (id : positive) (now : Z)
| transcript_arrives (text : string) (isFinal : bool)
| socket_drops (withError : bool)
| recorder_calls (cb : AudioRecorder.Callback).

(** The socket of the service is closed by the other side; [onerror], when
    it fires too, reports through the error callback. *)
Definition socketDropped (withError : bool) : Action unit :=
  service <- read deepgramRef ;;
  match service with
  | Some deepgram =>
      if DeepgramService.isConnected deepgram then
        setDeepgram (DeepgramService.mk (Some DeepgramService.CLOSED)
                                        (DeepgramService.apiKey deepgram)) ;;
        perform [socket_dropped] ;;
        if withError then perform [console_error] ;; onError "WebSocket connection error"
        else ret tt
      else ret tt
  | None => ret tt
  end.

(** A callback of the recorder reaches the controller while the processor
    node is attached. *)
Definition recorderCallback (cb : AudioRecorder.Callback) : Action unit :=
  recorder <- read recorderRef ;;
  match recorder with
  | Some r =>
      if AudioRecorder.processor r then
        match cb with
        | AudioRecorder.onVolumeChange vol => onVolume vol
        | AudioRecorder.onStatusChange status => onStatus status
        | AudioRecorder.onDataAvailable data => onData data
        | AudioRecorder.console_log | AudioRecorder.console_warn => ret tt
        end
      else ret tt
  | None => ret tt
  end.

Definition handle (e : Event) : Action unit :=
  match e with
  | click_record now media conn => toggleRecording now media conn
  | global_ptt_toggle now media conn => handleGlobalToggle now media conn
  | click_clear => clearTranscript
  | click_autoInsert => toggleAutoInsert
  | timer_fires id now =>
      effects <- read log ;;
      if timerRunning id effects then tick now else ret tt
  | transcript_arrives text isFinal =>
      service <- read deepgramRef ;;
      match service with
      | Some _ => onTranscript text isFinal
      | None => ret tt
      end
  | socket_drops withError => socketDropped withError
  | recorder_calls cb => recorderCallback cb
  end.

Definition step (w : World) (e : Event) : World := exec (handle e) w.

Definition run (events : list Event) (w : World) : World := fold_left step events w.

(** The states the hook has had, the current one first. *)
Definition states (w : World) : list PushToTalkState := state w :: rendered w.

(** An inbound message reaches the controller through the calls of the
    [onmessage] handler.  A transcript that is not a string is outside the
    typed state of the controller: [None]. *)
Fixpoint dispatch (calls : list DeepgramService.Call) (w : World) : option World :=
  match calls with
  | [] => Some w
  | DeepgramService.onTranscript (Json.str text) is_final :: rest =>
      dispatch rest (exec (onTranscript text (Json.truthy' is_final)) w)
  | DeepgramService.onTranscript _ _ :: _ => None
  | DeepgramService.onError err :: rest => dispatch rest (exec (onError err) w)
  | DeepgramService.console_error_parsing :: rest =>
      dispatch rest (exec (perform [console_error]) w)
  end.

Definition deliver (data : option Json.value) (w : World) : option World :=
  dispatch (DeepgramService.onmessage data) w.

(** ** Properties of runs *)

(** The edges of the connection state named by the specification. *)
Definition specEdge (a b : ConnectionState) : bool :=
  match a, b with
  | disconnected, connecting | connecting, connected | connected, disconnected => true
  | _, _ => false
  end.

(** The edges the controller takes: those, and the fall back from
    [connecting] when the connection attempt fails. *)
Definition edge (a b : ConnectionState) : bool :=
  specEdge a b || match a, b with connecting, disconnected => true | _, _ => false end.

Definition sameConnection (a b : ConnectionState) : bool :=
  match a, b with
  | disconnected, disconnected | connecting, connecting | connected, connected => true
  | _, _ => false
  end.

(** Every change of the connection state between consecutive states of a
    trace (latest state first) is allowed by [allowed]. *)
Fixpoint changesAlong (allowed : ConnectionState -> ConnectionState -> bool)
  (trace : list PushToTalkState) : bool :=
  match trace with
  | later :: (earlier :: _) as rest =>
      (sameConnection (connectionState earlier) (connectionState later)
       || allowed (connectionState earlier) (connectionState later))
      && changesAlong allowed rest
  | _ => true
  end.


(** The handles held by the two services agree with what was acquired and
    released on the platform. *)
Definition handlesAccounted (w : World) : Prop :=
  liveCaptures (log w)
  = (match recorderRef w with
     | Some r => if AudioRecorder.mediaStream r then 1 else 0
     | None => 0
     end)%nat
  /\ liveSockets (log w)
     = (match deepgramRef w with
        | Some d => if DeepgramService.isConnected d then 1 else 0
        | None => 0
        end)%nat.

(* ===================================================================== *)
(** * Scenarios                                                           *)
(* ===================================================================== *)

Local Close Scope string_scope.
Local Close Scope action_scope.

(** Three frames: amplitude 0.001 (RMS 0.001, silent), amplitude 0.5
    (RMS 0.5) and amplitude 0.125 (RMS 0.125). *)
Definition quietFrame : list Q := [1 # 1000; -1 # 1000; 1 # 1000; -1 # 1000]%Q.
Definition loudFrame : list Q := [1 # 2; 1 # 2; 1 # 2; 1 # 2]%Q.

(** A recorder after a granted [start], as the controller builds it. *)
Definition capturing : AudioRecorder.t :=
  AudioRecorder.mk true true true false true true 0 unknown true true.

(** A final result of the recognised shape with an empty transcript. *)
Definition emptyFinal : Json.value :=
  Json.object
    [("channel"%string,
      Json.object
        [("alternatives"%string,
          Json.array [Json.object [("transcript"%string, Json.str "");
                                   ("confidence"%string, Json.number 0)]])]);
     ("is_final"%string, Json.boolean true)].

(** A recording in progress with pending text and no committed text. *)
Definition dictating : World :=
  exec (onTranscript "hello wor" false)
       (exec (startRecording 1000 (granted 48000) opened) (initialWorld "key")).

(** A recording in progress with committed and pending text. *)
Definition spoken : World :=
  exec (onTranscript "wor" false)
       (exec (onTranscript "hello" true)
             (exec (startRecording 1000 (granted 48000) opened) (initialWorld "key"))).


(** The world after a session whose capture started and whose connection
    attempt failed. *)
Definition connectFailed : World :=
  exec (startRecording 1000 (granted 48000) failed) (initialWorld "key").

(** A recording in progress, three seconds in, with committed text. *)
Definition midSession : World :=
  run [click_record 1000 (granted 48000) opened;
       transcript_arrives "hello" true;
       timer_fires 1 4200]
      (initialWorld "key").

(* ===================================================================== *)
(** * Further definitions: observations, the App and more scenarios       *)
(* ===================================================================== *)

(** The number stored for a clamped sample, before truncation. *)
Definition scaled (c : Q) : Q := if JS.lt c 0 then (c * 32768)%Q else (c * 32767)%Q.

(** Whether every character of a string is white space. *)
Fixpoint allSpaces (s : string) : bool :=
  match s with
  | String c rest => Str.isSpace c && allSpaces rest
  | EmptyString => true
  end.

(** A needle is kept by [trimEnd] when its last character is not white
    space. *)
Fixpoint endsSolid (n : string) : bool :=
  match n with
  | String c EmptyString => negb (Str.isSpace c)
  | String _ rest => endsSolid rest
  | EmptyString => false
  end.

(** The API key the transcription service works with, and whether it is
    connected, for a hook whose service may not exist yet. *)
Definition serviceKey (w : World) : string :=
  match deepgramRef w with
  | Some deepgram => DeepgramService.apiKey deepgram
  | None => apiKey w
  end.

Definition serviceConnected (w : World) : bool :=
  match deepgramRef w with
  | Some deepgram => DeepgramService.isConnected deepgram
  | None => false
  end.

(** Whether the recorder of the hook holds a stream. *)
Definition capturingNow (w : World) : bool :=
  match recorderRef w with
  | Some recorder => AudioRecorder.mediaStream recorder
  | None => false
  end.

(** The recorder and the service a command works with: the ones in the
    refs, or the ones [getServices] creates. *)
Definition recorderOf (w : World) : AudioRecorder.t :=
  match recorderRef w with
  | Some recorder => recorder
  | None => AudioRecorder.new true true
  end.

Definition serviceOf (w : World) : DeepgramService.t :=
  match deepgramRef w with
  | Some deepgram => deepgram
  | None => DeepgramService.new (apiKey w)
  end.

(** Whether [startRecording] gets through: the microphone is granted and
    the connection is open already or can be opened. *)
Definition startOk (media : MediaOutcome) (conn : SocketOutcome) (w : World) : bool :=
  match media with
  | denied _ => false
  | granted _ =>
      serviceConnected w
      || (Str.truthy (serviceKey w) && match conn with opened => true | failed => false end)
  end.

(** The presses of the record button and of the global shortcut among the
    events of a run. *)
Definition presses (events : list Event) : nat :=
  List.length
    (filter (fun e => match e with
                      | click_record _ _ _ | global_ptt_toggle _ _ _ => true
                      | _ => false
                      end) events).

(** The events other than the global shortcut. *)
Definition notShortcut (e : Event) : Prop :=
  match e with
  | global_ptt_toggle _ _ _ => False
  | _ => True
  end.

(** What holds of the timers between two events: a timer that is running is
    the one kept in the ref, and a recording is then in progress. *)
Definition ticking (w : World) : Prop :=
  forall id, timerRunning id (log w) = true ->
             timerIntervalRef w = Some id /\ isRecording (state w) = true.

(** What holds in a run of a hook without API key in which only the record
    button is used: nothing was started. *)
Definition untouched (w : World) : Prop :=
  apiKey w = ""%string
  /\ isRecording (state w) = false
  /\ recorderRef w = None
  /\ deepgramRef w = None
  /\ Forall (fun e => e = window_alert) (log w).


(** An interim result of the recognised shape, with a second alternative
    that is not read. *)
Definition interimHello : Json.value :=
  Json.object
    [("type"%string, Json.str "Results");
     ("channel"%string,
      Json.object
        [("alternatives"%string,
          Json.array [Json.object [("transcript"%string, Json.str "hello")];
                      Json.object [("transcript"%string, Json.str "yellow")]])]);
     ("is_final"%string, Json.boolean false)].

(** The derived values and the history filter of [App]. *)
Module App.

(** [sessionDuration > 0 ? Math.round((wordCount / sessionDuration) * 60)
    : 0]. *)
Definition wpm (sessionDuration : Z) (wordCount : nat) : Z :=
  if 0 <? sessionDuration
  then JS.Math_round (inject_Z (Z.of_nat wordCount) / inject_Z sessionDuration * 60)
  else 0.


End App.

(* ===================================================================== *)
(** * The model at work                                                   *)
(* ===================================================================== *)

Example pcm16_samples :
  floatTo16BitPCM [1; -1; 3; -7 # 2; 0; -1 # 2; 1 # 4; -1 # 3]%Q
  = [32767; -32768; 32767; -32768; 0; -16384; 8191; -10922].
Proof. reflexivity. Qed.

Example words_of_text :
  Str.trim "  hello   world "%string = "hello   world"%string
  /\ Str.splitSpaces " a  b "%string ""%string false
     = [""; "a"; "b"; ""]%string
  /\ Str.countWords "  hello   world "%string = 2%nat
  /\ Str.countWords "   "%string = 0%nat
  /\ isVoiceCommand "Please CLEAR transcript now"%string = true.
Proof. repeat split. Qed.

Example loud_hiss_is_music_noise :
  fst (fst (AudioRecorder.analyzeAudio AudioRecorder.sqrt53
              (repeat 0 70 ++ [255]) [1 # 2; -1 # 2; 1 # 2; -1 # 2]%Q capturing))
  = music_noise.
Proof. reflexivity. Qed.

(** A frame of length 0 (which the 4096-sample processor never delivers)
    has no RMS: the volume handed over is [NaN] and the status is
    [speech]. *)
Example empty_frame_has_no_volume :
  AudioRecorder.onaudioprocess AudioRecorder.sqrt53 [0; 0] [] capturing
  = (AudioRecorder.mk true true true false true true 1 speech true true,
     [AudioRecorder.onVolumeChange None; AudioRecorder.onStatusChange speech;
      AudioRecorder.onDataAvailable []]).
Proof. reflexivity. Qed.

(** One session: record, an interim and a final result, five seconds,
    stop. *)
Example one_session :
  let w := run [click_record 1000 (granted 48000) opened;
                transcript_arrives "hello wor" false;
                transcript_arrives "hello world" true;
                timer_fires 1 3000;
                click_record 6000 (granted 48000) opened]
               (initialWorld "key") in
  rev (map connectionState (states w))
  = [disconnected; disconnected; connecting; connected; connected; connected;
     connected; disconnected]
  /\ history (state w)
     = [SessionRecord.mk 6000 6000 "hello world" (inject_Z 5000 / 1000) 2]
  /\ log w
     = [setInterval 1; getUserMedia None true; new_WebSocket 48000; socket_onopen;
        clearInterval 1; tracks_stop; processor_disconnect; audioContext_close;
        socket_send_CloseStream; socket_close].
Proof. repeat split. Qed.

(* ===================================================================== *)
(** * Proofs: the encoder                                                 *)
(* ===================================================================== *)

Section Encoder.

Local Open Scope Q_scope.

Lemma Qle_bool_false (x y : Q) : Qle_bool x y = false -> y < x.
Proof.
  intros H. apply Qnot_le_lt. intros Hle.
  apply Qle_bool_iff in Hle. congruence.
Qed.

Lemma lt_spec (x y : Q) : JS.lt x y = true <-> x < y.
Proof.
  unfold JS.lt. destruct (Qle_bool y x) eqn:E; simpl.
  - apply Qle_bool_iff in E. split; [discriminate | intros H; exfalso; lra].
  - apply Qle_bool_false in E. tauto.
Qed.

Lemma lt_false (x y : Q) : JS.lt x y = false <-> y <= x.
Proof.
  unfold JS.lt. destruct (Qle_bool y x) eqn:E; simpl.
  - apply Qle_bool_iff in E. tauto.
  - apply Qle_bool_false in E. split; [discriminate | intros H; exfalso; lra].
Qed.

(** Truncation is the floor of a non-negative number and the ceiling of a
    negative one. *)
Lemma truncate_nonneg (x : Q) : 0 <= x -> JS.truncate x = Qfloor x.
Proof.
  destruct x as [n d]. unfold Qle, JS.truncate, Qfloor. simpl. intros H.
  apply Z.quot_div_nonneg; lia.
Qed.

Lemma truncate_neg (x : Q) : x <= 0 -> JS.truncate x = Qceiling x.
Proof.
  destruct x as [n d]. unfold Qle, JS.truncate, Qceiling, Qfloor. simpl. intros H.
  replace n with (- (- n))%Z at 1 by lia.
  rewrite Z.quot_opp_l by lia. f_equal.
  apply Z.quot_div_nonneg; lia.
Qed.

Lemma truncate_comp (x y : Q) : x == y -> JS.truncate x = JS.truncate y.
Proof.
  intros E. destruct (Qlt_le_dec x 0) as [Hneg | Hpos].
  - rewrite !truncate_neg by lra. now rewrite E.
  - rewrite !truncate_nonneg by lra. now rewrite E.
Qed.

Lemma truncate_range (x : Q) (lo hi : Z) :
  (lo <= 0 <= hi)%Z -> inject_Z lo <= x <= inject_Z hi ->
  (lo <= JS.truncate x <= hi)%Z.
Proof.
  intros Hz [Hlo Hhi]. destruct (Qlt_le_dec x 0) as [Hneg | Hpos].
  - rewrite truncate_neg by lra.
    pose proof (Qceiling_resp_le _ _ Hlo) as P1.
    pose proof (Qceiling_resp_le x 0 (Qlt_le_weak _ _ Hneg)) as P2.
    rewrite Qceiling_Z in P1. change (Qceiling 0) with 0%Z in P2. lia.
  - rewrite truncate_nonneg by lra.
    pose proof (Qfloor_resp_le _ _ Hhi) as P1.
    pose proof (Qfloor_resp_le 0 x Hpos) as P2.
    rewrite Qfloor_Z in P1. change (Qfloor 0) with 0%Z in P2. lia.
Qed.

(** A number within the signed 16-bit range is stored as its
    truncation. *)
Lemma ToInt16_in_range (x : Q) :
  -32768 <= x <= 32767 -> JS.ToInt16 x = JS.truncate x.
Proof.
  intros H. pose proof (truncate_range x (-32768) 32767 ltac:(lia) H) as R.
  unfold JS.ToInt16. cbv zeta.
  destruct (Z.leb_spec 32768 (JS.truncate x mod 65536)) as [L | L];
    Z.to_euclidean_division_equations; lia.
Qed.

Lemma clamp_inside (s : Q) :
  -1 <= s <= 1 -> JS.Math_max (-1) (JS.Math_min 1 s) == s.
Proof.
  intros [Hlo Hhi]. unfold JS.Math_max, JS.Math_min.
  destruct (Qle_bool 1 s) eqn:E1.
  - apply Qle_bool_iff in E1.
    destruct (Qle_bool (-1) 1) eqn:E2; [lra | apply Qle_bool_false in E2; lra].
  - destruct (Qle_bool (-1) s) eqn:E2; [reflexivity | apply Qle_bool_false in E2; lra].
Qed.

Lemma clamp_above (s : Q) : 1 < s -> JS.Math_max (-1) (JS.Math_min 1 s) == 1.
Proof.
  intros H. unfold JS.Math_max, JS.Math_min.
  destruct (Qle_bool 1 s) eqn:E1.
  - reflexivity.
  - apply Qle_bool_false in E1. lra.
Qed.

Lemma clamp_below (s : Q) : s < -1 -> JS.Math_max (-1) (JS.Math_min 1 s) == -1.
Proof.
  intros H. unfold JS.Math_max, JS.Math_min.
  destruct (Qle_bool 1 s) eqn:E1.
  - apply Qle_bool_iff in E1. lra.
  - destruct (Qle_bool (-1) s) eqn:E2; [apply Qle_bool_iff in E2; lra | reflexivity].
Qed.

(** The encoder applied to a sample whose clamped value is [c]. *)
Lemma pcm16_of_clamped (sample c : Q) :
  JS.Math_max (-1) (JS.Math_min 1 sample) == c -> -1 <= c <= 1 ->
  pcm16 sample = JS.truncate (if JS.lt c 0 then c * 32768 else c * 32767).
Proof.
  intros E R. unfold pcm16. cbv zeta.
  set (s := JS.Math_max (-1) (JS.Math_min 1 sample)) in *.
  assert (JS.lt s 0 = JS.lt c 0) as ->.
  { destruct (JS.lt c 0) eqn:L.
    - apply lt_spec in L. apply lt_spec. lra.
    - apply lt_false in L. apply lt_false. lra. }
  destruct (JS.lt c 0) eqn:L.
  - apply lt_spec in L. rewrite ToInt16_in_range by (simpl; lra).
    apply truncate_comp. now rewrite E.
  - apply lt_false in L. rewrite ToInt16_in_range by (simpl; lra).
    apply truncate_comp. now rewrite E.
Qed.

End Encoder.

(** C3 (as amended).  For every sample [s] the encoder stores
    [s * 0x7FFF] truncated towards zero when [0 <= s <= 1] and [s * 0x8000]
    truncated towards zero when [-1 <= s < 0]; a sample above [1] gives
    [0x7FFF] and a sample below [-1] gives [-0x8000]. *)
Theorem pcm16_truncates (s : Q) :
  ((0 <= s <= 1)%Q -> pcm16 s = JS.truncate (s * 32767))
  /\ ((-1 <= s < 0)%Q -> pcm16 s = JS.truncate (s * 32768))
  /\ ((1 < s)%Q -> pcm16 s = 32767)
  /\ ((s < -1)%Q -> pcm16 s = -32768).
Proof.
  repeat split; intros H.
  - rewrite (pcm16_of_clamped s s) by (try apply clamp_inside; lra).
    destruct (JS.lt s 0) eqn:L; [apply lt_spec in L; lra | reflexivity].
  - rewrite (pcm16_of_clamped s s) by (try apply clamp_inside; lra).
    destruct (JS.lt s 0) eqn:L; [reflexivity | apply lt_false in L; lra].
  - rewrite (pcm16_of_clamped s 1) by (try apply clamp_above; lra). reflexivity.
  - rewrite (pcm16_of_clamped s (-1)) by (try apply clamp_below; lra). reflexivity.
Qed.

Lemma pcm16_truncates_witness :
  pcm16 (3 # 4) = JS.truncate ((3 # 4) * 32767)
  /\ pcm16 (-1 # 3) = JS.truncate ((-1 # 3) * 32768)
  /\ pcm16 (5 # 2) = 32767
  /\ pcm16 (-2) = -32768.
Proof.
  split; [| split; [| split]].
  - apply (pcm16_truncates (3 # 4)). lra.
  - apply (pcm16_truncates (-1 # 3)). lra.
  - apply (pcm16_truncates (5 # 2)). lra.
  - apply (pcm16_truncates (-2)). lra.
Defined.

(** C3 (as stated) fails: the sample [1/4] lies in [[0, 1]], its product
    with [0x7FFF] is [8191.75], which rounds to [8192], and the encoder
    stores [8191]. *)
Lemma pcm16_does_not_round :
  (0 <= 1 # 4 <= 1)%Q
  /\ JS.Math_round ((1 # 4) * 32767) = 8192
  /\ pcm16 (1 # 4) = 8191
  /\ pcm16 (1 # 4) <> pcm16_rounding (1 # 4).
Proof.
  repeat split; try (vm_compute; congruence).
Qed.

(* ===================================================================== *)
(** * Proofs: the classifier                                              *)
(* ===================================================================== *)

Section Classifier.

Import AudioRecorder.
Variable Math_sqrt : Q -> Q.




Lemma Math_round_monotone (x y : Q) : (x <= y)%Q -> JS.Math_round x <= JS.Math_round y.
Proof. intros H. unfold JS.Math_round. apply Qfloor_resp_le. lra. Qed.

Lemma Math_round_nonneg (x : Q) : (0 <= x)%Q -> 0 <= JS.Math_round x.
Proof.
  intros H. change 0 with (JS.Math_round (-1 # 2)). apply Math_round_monotone. lra.
Qed.



Lemma centroidOf_zero_energy (dataArray : list Z) :
  totalEnergy dataArray = 0 -> centroidOf dataArray = 0%Q.
Proof.
  unfold totalEnergy, centroidOf. destruct (spectrumSums 0 dataArray 0 0) as [ws tw].
  simpl. intros ->. reflexivity.
Qed.

End Classifier.

Import AudioRecorder.





(** C9 (as amended).  [analyzeAudio] has no error path.  When the spectrum
    snapshot has zero total energy the centroid is taken to be 0, without a
    division, and the frame is classified by its RMS alone: [silence] below
    the silence threshold, [speech] otherwise, never [music_noise]. *)
Theorem zero_energy_defaults (Math_sqrt : Q -> Q) (dataArray : list Z)
  (inputData : list Q) (this : AudioRecorder.t) :
  totalEnergy dataArray = 0 ->
  centroidOf dataArray = 0%Q
  /\ fst (fst (analyzeAudio Math_sqrt dataArray inputData this))
     = if nan_lt (rmsOf Math_sqrt inputData) silenceThreshold then silence else speech.
Proof.
  intros H. pose proof (centroidOf_zero_energy dataArray H) as C.
  split; [exact C |].
  unfold analyzeAudio. cbv zeta. rewrite C.
  destruct (nan_lt _ _); [reflexivity |].
  destruct (analyser this); reflexivity.
Qed.

Lemma zero_energy_defaults_witness :
  fst (fst (analyzeAudio sqrt53 [0; 0; 0; 0] quietFrame capturing)) = silence
  /\ fst (fst (analyzeAudio sqrt53 [0; 0; 0; 0] loudFrame capturing)) = speech.
Proof.
  split.
  - exact (proj2 (zero_energy_defaults sqrt53 [0; 0; 0; 0] quietFrame capturing eq_refl)).
  - exact (proj2 (zero_energy_defaults sqrt53 [0; 0; 0; 0] loudFrame capturing eq_refl)).
Defined.

(** C9 (as stated) fails: a frame of four samples [0.5] has RMS [0.5]; with
    an all-zero spectrum snapshot it is classified [speech], not
    [silence]. *)
Lemma zero_energy_not_silence :
  totalEnergy [0; 0; 0; 0] = 0
  /\ (exists rms, rmsOf sqrt53 loudFrame = Some rms /\ (rms == 1 # 2)%Q)
  /\ fst (fst (analyzeAudio sqrt53 [0; 0; 0; 0] loudFrame capturing)) = speech
  /\ fst (fst (analyzeAudio sqrt53 [0; 0; 0; 0] loudFrame capturing)) <> silence.
Proof.
  split; [reflexivity |]. split; [eexists; split; reflexivity |].
  split; [reflexivity | vm_compute; discriminate].
Qed.

(* ===================================================================== *)
(** * Proofs: transcript events                                           *)
(* ===================================================================== *)

Section Transcript.

Local Open Scope string_scope.

(** The state after the transcript callback. *)
Lemma onTranscript_state (text : string) (isFinal : bool) (w : World) :
  state (exec (onTranscript text isFinal) w)
  = if isFinal && isVoiceCommand text
    then clearByVoice (transcriptUpdate text isFinal (state w))
    else transcriptUpdate text isFinal (state w).
Proof.
  unfold onTranscript, exec, bind, setState, ret. simpl.
  destruct (isFinal && isVoiceCommand text); reflexivity.
Qed.

Lemma final_clears_interim (text : string) (w : World) :
  interimTranscript (state (exec (onTranscript text true) w)) = "".
Proof.
  rewrite onTranscript_state. destruct (true && isVoiceCommand text); reflexivity.
Qed.

Lemma final_appends (text : string) (w : World) :
  isVoiceCommand text = false ->
  transcript (state (exec (onTranscript text true) w))
  = if Str.truthy (transcript (state w))
    then transcript (state w) ++ " " ++ text
    else text.
Proof.
  intros H. rewrite onTranscript_state, H. reflexivity.
Qed.

Lemma append_assoc (a b c : string) : (a ++ b) ++ c = a ++ (b ++ c).
Proof. induction a as [| ch a IH]; simpl; [reflexivity | now rewrite IH]. Qed.

End Transcript.

(** C8.  A final transcript event clears the pending text and, unless it
    is one of the two voice commands, sets the committed text to the
    incoming text when the committed text was empty and to the committed
    text, one space and the incoming text otherwise.  Two consecutive final
    events "foo" then "bar" therefore leave "foo bar" from an empty
    committed text (not "foobar", not "foo  bar"), and the committed text
    followed by " foo bar" otherwise; the pending text is empty after
    each. *)
Theorem finals_join_with_one_space (w : World) :
  let w1 := exec (onTranscript "foo" true) w in
  let w2 := exec (onTranscript "bar" true) w1 in
  (forall text : string, interimTranscript (state (exec (onTranscript text true) w)) = ""%string)
  /\ (forall text : string,
        isVoiceCommand text = false ->
        transcript (state (exec (onTranscript text true) w))
        = if Str.truthy (transcript (state w))
          then (transcript (state w) ++ " " ++ text)%string
          else text)
  /\ interimTranscript (state w1) = ""%string
  /\ interimTranscript (state w2) = ""%string
  /\ (transcript (state w) = ""%string ->
      transcript (state w1) = "foo"%string /\ transcript (state w2) = "foo bar"%string)
  /\ (transcript (state w) <> ""%string ->
      transcript (state w2) = (transcript (state w) ++ " foo bar")%string).
Proof.
  intros w1 w2.
  split; [intros text; apply final_clears_interim |].
  split; [intros text; apply final_appends |].
  split; [apply final_clears_interim |].
  split; [apply final_clears_interim |].
  assert (transcript (state w1)
          = if Str.truthy (transcript (state w))
            then (transcript (state w) ++ " foo")%string else "foo"%string) as E1
      by (apply final_appends; reflexivity).
  assert (transcript (state w2)
          = if Str.truthy (transcript (state w1))
            then (transcript (state w1) ++ " bar")%string else "bar"%string) as E2
      by (apply (final_appends "bar" w1); reflexivity).
  split.
  - intros H. rewrite E2, E1, H. split; reflexivity.
  - intros H. rewrite E2, E1.
    destruct (transcript (state w)) as [| c rest] eqn:T; [congruence |].
    simpl. now rewrite append_assoc.
Qed.

Lemma finals_join_with_one_space_witness :
  transcript (state (exec (onTranscript "bar" true)
                          (exec (onTranscript "foo" true) (initialWorld "key"))))
  = "foo bar"%string.
Proof.
  apply (finals_join_with_one_space (initialWorld "key")). reflexivity.
Defined.

(** C10.  An inbound message of the recognised shape whose
    [alternatives[0].transcript] is the empty string makes the [onmessage]
    handler call nothing, whatever its [is_final]; delivered to the
    controller it leaves the whole hook, and so the pending transcript, as
    it was. *)
Theorem empty_transcript_is_dropped
  (data channel alt : Json.value) (others : list Json.value) (w : World) :
  Json.get "channel" data = Some channel ->
  Json.get "alternatives" channel = Some (Json.array (alt :: others)) ->
  Json.get "transcript" alt = Some (Json.str "") ->
  DeepgramService.onmessage (Some data) = []
  /\ deliver (Some data) w = Some w
  /\ (forall w', deliver (Some data) w = Some w' ->
                 interimTranscript (state w') = interimTranscript (state w)).
Proof.
  intros Hc Ha Ht.
  assert (DeepgramService.onmessage (Some data) = []) as E.
  { destruct data; try discriminate Hc.
    destruct channel; try discriminate Ha.
    destruct alt; try discriminate Ht.
    unfold DeepgramService.onmessage. rewrite Hc. cbn [Json.truthy]. rewrite Ha.
    cbn [Json.truthy Json.first]. rewrite Ht. reflexivity. }
  split; [exact E |].
  unfold deliver. rewrite E. simpl. split; [reflexivity |].
  intros w' [= <-]. reflexivity.
Qed.

Lemma empty_transcript_is_dropped_witness :
  DeepgramService.onmessage (Some emptyFinal) = []
  /\ deliver (Some emptyFinal) dictating = Some dictating
  /\ interimTranscript (state dictating) = "hello wor"%string.
Proof.
  pose proof (empty_transcript_is_dropped emptyFinal _ _ _ dictating
                eq_refl eq_refl eq_refl) as [E [D _]].
  split; [exact E |]. split; [exact D | reflexivity].
Defined.

(* ===================================================================== *)
(** * Proofs: stopping a session                                          *)
(* ===================================================================== *)

Section Stopping.

Variables (now : Z) (reason : option string).

(** The state after [handleStop] is the state given by its updater. *)
Lemma handleStop_state (w : World) :
  state (exec (handleStop now reason) w)
  = stopUpdate now (startTimeRef w) reason (state w).
Proof.
  destruct w as [st rd rec dg t0 timer key dev nt lg].
  unfold handleStop, exec, bind, clearTimerIfSet, read, setTimerRef, perform, setState,
    getServices, onRecorder, onDeepgram, setRecorder, setDeepgram, ret.
  destruct timer; cbn; reflexivity.
Qed.

(** Everything [handleStop] does to the platform. *)
Lemma handleStop_log (w : World) :
  log (exec (handleStop now reason) w)
  = log w
      ++ match timerIntervalRef w with Some timer => [clearInterval timer] | None => [] end
      ++ autoInsertEffect (state w)
      ++ match recorderRef w with
         | Some recorder => snd (AudioRecorder.stop recorder)
         | None => []
         end
      ++ match deepgramRef w with
         | Some deepgram => snd (DeepgramService.disconnect deepgram)
         | None => []
         end.
Proof.
  destruct w as [st rd rec dg t0 timer key dev nt lg].
  unfold handleStop, exec, bind, clearTimerIfSet, read, setTimerRef, perform, setState,
    getServices, onRecorder, onDeepgram, setRecorder, setDeepgram, ret.
  destruct timer, rec, dg; cbn;
    rewrite <- ?app_assoc, ?app_nil_r; reflexivity.
Qed.



End Stopping.



(** C7 (as amended).  When no recording is in progress [handleStop]
    returns the state unchanged.  It still clears a timer identifier left
    in its ref and calls [recorder.stop()] and [deepgram.disconnect()],
    which release whatever the two services still hold.  When nothing is
    held (no timer identifier, no stream nor audio node, no socket) nothing
    is done to the platform; in particular [stop()] on a recorder that was
    never started changes nothing and does nothing. *)
Theorem stop_when_idle (now : Z) (reason : option string) (w : World) :
  isRecording (state w) = false ->
  let w' := exec (handleStop now reason) w in
  state w' = state w
  /\ log w'
     = log w
         ++ match timerIntervalRef w with Some timer => [clearInterval timer] | None => [] end
         ++ match recorderRef w with
            | Some recorder => snd (AudioRecorder.stop recorder)
            | None => []
            end
         ++ match deepgramRef w with
            | Some deepgram => snd (DeepgramService.disconnect deepgram)
            | None => []
            end
  /\ (timerIntervalRef w = None ->
      (forall recorder, recorderRef w = Some recorder ->
         AudioRecorder.mediaStream recorder = false
         /\ AudioRecorder.processor recorder = false
         /\ AudioRecorder.input recorder = false
         /\ AudioRecorder.audioContext recorder = false) ->
      (forall deepgram, deepgramRef w = Some deepgram ->
         DeepgramService.isConnected deepgram = false) ->
      log w' = log w)
  /\ (forall withStatus withVolume,
        AudioRecorder.stop (AudioRecorder.new withStatus withVolume)
        = (AudioRecorder.new withStatus withVolume, [])).
Proof.
  intros Hidle w'.
  assert (autoInsertEffect (state w) = []) as A
      by (unfold autoInsertEffect; rewrite Hidle; reflexivity).
  assert (log w'
     = log w
         ++ match timerIntervalRef w with Some timer => [clearInterval timer] | None => [] end
         ++ match recorderRef w with
            | Some recorder => snd (AudioRecorder.stop recorder)
            | None => []
            end
         ++ match deepgramRef w with
            | Some deepgram => snd (DeepgramService.disconnect deepgram)
            | None => []
            end) as L
      by (subst w'; rewrite handleStop_log, A; reflexivity).
  split; [| split; [exact L | split]].
  - subst w'. rewrite handleStop_state. unfold stopUpdate. rewrite Hidle. reflexivity.
  - intros Ht Hr Hd. rewrite L, Ht.
    assert (match recorderRef w with
            | Some recorder => snd (AudioRecorder.stop recorder)
            | None => []
            end = []) as ->.
    { destruct (recorderRef w) as [r |]; [| reflexivity].
      destruct (Hr r eq_refl) as (H1 & H2 & H3 & H4).
      unfold AudioRecorder.stop. cbn [snd]. rewrite H1, H2, H3, H4. reflexivity. }
    assert (match deepgramRef w with
            | Some deepgram => snd (DeepgramService.disconnect deepgram)
            | None => []
            end = []) as ->.
    { destruct (deepgramRef w) as [d |]; [| reflexivity].
      specialize (Hd d eq_refl). unfold DeepgramService.isConnected in Hd.
      unfold DeepgramService.disconnect.
      destruct (DeepgramService.socket d) as [[] |]; try reflexivity. discriminate Hd. }
    now rewrite !app_nil_r.
  - intros withStatus withVolume. reflexivity.
Qed.

Lemma stop_when_idle_witness :
  state (exec (handleStop 5000 None) (initialWorld "key")) = state (initialWorld "key")
  /\ log (exec (handleStop 5000 None) (initialWorld "key")) = [].
Proof.
  pose proof (stop_when_idle 5000 None (initialWorld "key") eq_refl) as [S [_ [N _]]].
  split; [exact S |].
  apply N; [reflexivity | discriminate | discriminate].
Defined.

(** C7 (as stated) fails: after a session whose connection attempt failed
    no recording is in progress, yet the capture started by that attempt is
    still held, and [handleStop] releases it: it stops the tracks,
    disconnects the processor and closes the audio context. *)
Lemma stop_when_idle_has_effects :
  isRecording (state connectFailed) = false
  /\ log (exec (handleStop 5000 None) connectFailed)
     = log connectFailed
         ++ [clearInterval 1; tracks_stop; processor_disconnect; audioContext_close]
  /\ log (exec (handleStop 5000 None) connectFailed) <> log connectFailed.
Proof.
  split; [reflexivity |]. split; [reflexivity |]. vm_compute. discriminate.
Qed.

(* ===================================================================== *)
(** * Proofs: runs of the controller                                      *)
(* ===================================================================== *)

Section Runs.



Lemma exec_read {A B : Type} (f : World -> A) (k : A -> Action B) (w : World) :
  exec (bind (read f) k) w = exec (k (f w)) w.
Proof. reflexivity. Qed.

Lemma exec_setState {B : Type} (updater : PushToTalkState -> PushToTalkState)
  (k : unit -> Action B) (w : World) :
  exec (bind (setState updater) k) w = exec (k tt) (exec (setState updater) w).
Proof. reflexivity. Qed.

Lemma exec_ret (w : World) : exec (ret tt) w = w.
Proof. reflexivity. Qed.


(** Case analysis on what the control flow of the commands depends on:
    the timer ref, whether the services exist, whether the recorder holds
    a stream, the state of the socket and whether there is an API key. *)
Ltac cases_of_world rec dg timer key :=
  destruct timer as [timer |];
  destruct rec as [[[] ? ? ? ? ? ? ? ? ?] |];
  destruct dg as [[[[] |] [| ? ?]] |];
  destruct key as [| ? ?].

(** Evaluation of a command on a world, leaving the data alone. *)
Ltac compute_world :=
  cbv beta iota zeta delta
    -[changesAlong edge sameConnection Str.truthy Str.trim Str.countWords isVoiceCommand
      timerRunning liveCaptures liveSockets app Pos.succ Z.sub Z.add Qdiv inject_Z
      JS.Math_floor String.append String.length fullTextOf newRecord autoInsertEffect
      transcriptUpdate clearByVoice].


(** ** The connection state *)









(** ** The handles *)

Lemma liveCaptures_app (log effects : list Effect) :
  liveCaptures (log ++ effects) = fold_left captureStep effects (liveCaptures log).
Proof. apply fold_left_app. Qed.

Lemma liveSockets_app (log effects : list Effect) :
  liveSockets (log ++ effects) = fold_left socketStep effects (liveSockets log).
Proof. apply fold_left_app. Qed.

Ltac count_handles Hc Hs :=
  cbv beta iota zeta delta [handlesAccounted log recorderRef deepgramRef
    AudioRecorder.mediaStream DeepgramService.isConnected DeepgramService.socket] in *;
  destruct Hc as [Hc Hs];
  rewrite ?liveCaptures_app, ?liveSockets_app, ?app_nil_r, ?fold_left_app;
  cbn [fold_left captureStep socketStep];
  rewrite ?Hc, ?Hs;
  unfold autoInsertEffect;
  repeat match goal with
    | |- context [if ?b then _ else _] => destruct b
    end;
  split; reflexivity.


Lemma handleStop_accounted (now : Z) (reason : option string) (w : World) :
  handlesAccounted w -> handlesAccounted (exec (handleStop now reason) w).
Proof.
  destruct w as [st rd rec dg t0 timer key dev nt lg].
  intros H.
  cases_of_world rec dg timer key.
  all: unfold exec, handleStop.
  all: compute_world.
  all: count_handles H Hs.
Qed.






(** What [startRecording] leaves in the state and the refs, whatever the
    state it starts from. *)
Lemma startRecording_resets (now : Z) (media : MediaOutcome) (conn : SocketOutcome)
  (w : World) :
  let w' := exec (startRecording now media conn) w in
  transcript (state w') = ""%string
  /\ sessionDuration (state w') = 0
  /\ startTimeRef w' = now
  /\ timerIntervalRef w' = Some (nextTimer w).
Proof.
  destruct w as [st rd rec dg t0 timer key dev nt lg].
  cases_of_world rec dg timer key; destruct media, conn, dev.
  all: compute_world.
  all: repeat split.
Qed.

End Runs.






(* ===================================================================== *)
(** * Further proofs: the encoder                                         *)
(* ===================================================================== *)

Section EncoderMore.

Local Open Scope Q_scope.

Lemma clamp_range (s : Q) :
  -1 <= JS.Math_max (-1) (JS.Math_min 1 s) <= 1.
Proof.
  unfold JS.Math_max, JS.Math_min.
  destruct (Qle_bool 1 s) eqn:E1.
  - destruct (Qle_bool (-1) 1) eqn:E2; lra.
  - apply Qle_bool_false in E1.
    destruct (Qle_bool (-1) s) eqn:E2; [apply Qle_bool_iff in E2 |]; lra.
Qed.

Lemma clamp_monotone (s s' : Q) :
  s <= s' ->
  JS.Math_max (-1) (JS.Math_min 1 s) <= JS.Math_max (-1) (JS.Math_min 1 s').
Proof.
  intros H. unfold JS.Math_max, JS.Math_min.
  destruct (Qle_bool 1 s) eqn:E1; destruct (Qle_bool 1 s') eqn:E1';
    try apply Qle_bool_iff in E1; try apply Qle_bool_iff in E1';
    try apply Qle_bool_false in E1; try apply Qle_bool_false in E1';
    destruct (Qle_bool (-1) 1) eqn:E2;
    destruct (Qle_bool (-1) s) eqn:E3; destruct (Qle_bool (-1) s') eqn:E3';
    try apply Qle_bool_iff in E3; try apply Qle_bool_iff in E3';
    try apply Qle_bool_false in E3; try apply Qle_bool_false in E3';
    try apply Qle_bool_false in E2; lra.
Qed.

Lemma scaled_monotone (c c' : Q) : c <= c' -> scaled c <= scaled c'.
Proof.
  intros H. unfold scaled.
  destruct (JS.lt c 0) eqn:L; destruct (JS.lt c' 0) eqn:L';
    try apply lt_spec in L; try apply lt_spec in L';
    try apply lt_false in L; try apply lt_false in L'; lra.
Qed.

Lemma truncate_monotone (x y : Q) : x <= y -> (JS.truncate x <= JS.truncate y)%Z.
Proof.
  intros H.
  destruct (Qlt_le_dec x 0) as [Hx | Hx]; destruct (Qlt_le_dec y 0) as [Hy | Hy].
  - rewrite !truncate_neg by lra. now apply Qceiling_resp_le.
  - rewrite truncate_neg, truncate_nonneg by lra.
    pose proof (Qceiling_resp_le x 0 (Qlt_le_weak _ _ Hx)) as P1.
    pose proof (Qfloor_resp_le 0 y Hy) as P2.
    change (Qceiling 0) with 0%Z in P1. change (Qfloor 0) with 0%Z in P2. lia.
  - lra.
  - rewrite !truncate_nonneg by lra. now apply Qfloor_resp_le.
Qed.

Lemma pcm16_as_truncation (s : Q) :
  pcm16 s = JS.truncate (scaled (JS.Math_max (-1) (JS.Math_min 1 s))).
Proof.
  apply pcm16_of_clamped; [reflexivity | apply clamp_range].
Qed.


End EncoderMore.

(** X1.  [floatTo16BitPCM] keeps the length of the frame, every value it
    stores lies in the signed 16-bit range, and the conversion never wraps
    around: a non-negative sample gives a non-negative value and a
    non-positive sample a non-positive value, however large the sample. *)
Theorem floatTo16BitPCM_no_wrap (input : list Q) :
  List.length (floatTo16BitPCM input) = List.length input
  /\ Forall (fun d => -32768 <= d <= 32767) (floatTo16BitPCM input)
  /\ (forall s, In s input -> (0 <= s)%Q -> 0 <= pcm16 s)
  /\ (forall s, In s input -> (s <= 0)%Q -> pcm16 s <= 0).
Proof.
  assert (forall s, -32768 <= pcm16 s <= 32767) as R.
  { intros s. rewrite pcm16_as_truncation.
    pose proof (clamp_range s) as C.
    set (c := JS.Math_max (-1) (JS.Math_min 1 s)) in *.
    apply truncate_range; [lia |]. unfold scaled, inject_Z.
    destruct (JS.lt c 0) eqn:L; [apply lt_spec in L | apply lt_false in L]; lra. }
  split; [apply length_map |]. split; [| split].
  - unfold floatTo16BitPCM. apply Forall_forall. intros d Hd.
    apply in_map_iff in Hd. destruct Hd as [s [<- _]]. apply R.
  - intros s _ Hs. change (pcm16 0 <= pcm16 s).
    rewrite !pcm16_as_truncation. apply truncate_monotone, scaled_monotone.
    now apply clamp_monotone.
  - intros s _ Hs. change (pcm16 s <= pcm16 0).
    rewrite !pcm16_as_truncation. apply truncate_monotone, scaled_monotone.
    now apply clamp_monotone.
Qed.

Lemma floatTo16BitPCM_no_wrap_witness :
  0 <= pcm16 (7 # 2) /\ pcm16 (-9 # 4) <= 0.
Proof.
  pose proof (floatTo16BitPCM_no_wrap [7 # 2; -9 # 4]%Q) as (_ & _ & P & N).
  split.
  - apply P; [left; reflexivity | vm_compute; discriminate].
  - apply N; [right; left; reflexivity | vm_compute; discriminate].
Defined.

(** X2.  The encoder is monotone: a larger sample never gives a smaller
    PCM value; in particular two representations of the same rational
    sample give the same value. *)
Theorem pcm16_monotone (s s' : Q) :
  (s <= s')%Q -> pcm16 s <= pcm16 s'.
Proof.
  intros H. rewrite !pcm16_as_truncation.
  apply truncate_monotone, scaled_monotone. now apply clamp_monotone.
Qed.

Lemma pcm16_monotone_witness : pcm16 (1 # 3) <= pcm16 (2 # 5).
Proof. apply pcm16_monotone. vm_compute. discriminate. Defined.



(* ===================================================================== *)
(** * Further proofs: the classifier                                      *)
(* ===================================================================== *)

Section ClassifierMore.

(** The sums of the spectrum loop, for bins that are not negative. *)
Lemma spectrumSums_bounds (dataArray : list Z) :
  Forall (fun d => 0 <= d) dataArray ->
  forall i weightedSum totalWeight,
    0 <= i ->
    let '(ws, tw) := spectrumSums i dataArray weightedSum totalWeight in
    totalWeight <= tw
    /\ weightedSum + i * (tw - totalWeight) <= ws
    /\ ws <= weightedSum + (i + Z.of_nat (List.length dataArray) - 1) * (tw - totalWeight).
Proof.
  induction 1 as [| d rest Hd Hrest IH]; intros i weightedSum totalWeight Hi.
  - simpl. repeat split; lia.
  - cbn [spectrumSums List.length].
    specialize (IH (i + 1) (weightedSum + i * d) (totalWeight + d) ltac:(lia)).
    destruct (spectrumSums (i + 1) rest (weightedSum + i * d) (totalWeight + d))
      as [ws tw].
    destruct IH as (T & L & U). repeat split; [lia | nia | nia].
Qed.

Lemma sumSquares_from (inputData : list Q) (acc : Q) :
  (fold_left (fun a x => a + x * x) inputData acc
   == acc + fold_left (fun a x => a + x * x) inputData 0)%Q.
Proof.
  revert acc. induction inputData as [| x rest IH]; intros acc; simpl.
  - lra.
  - rewrite IH, (IH (0 + x * x)%Q). lra.
Qed.

Lemma sumSquares_cons (x : Q) (rest : list Q) :
  (sumSquares (x :: rest) == x * x + sumSquares rest)%Q.
Proof. unfold sumSquares. simpl. rewrite sumSquares_from. lra. Qed.

Lemma sumSquares_bounds (inputData : list Q) :
  (0 <= sumSquares inputData)%Q
  /\ (Forall (fun x => -1 <= x <= 1)%Q inputData ->
      (sumSquares inputData <= inject_Z (Z.of_nat (List.length inputData)))%Q).
Proof.
  induction inputData as [| x rest [IH1 IH2]].
  - split; [unfold sumSquares; simpl; lra | intros _; vm_compute; discriminate].
  - split.
    + rewrite sumSquares_cons. nra.
    + intros H. inversion H as [| ? ? Hx Hr]; subst.
      specialize (IH2 Hr). rewrite sumSquares_cons.
      cbn [List.length]. rewrite Nat2Z.inj_succ. unfold Z.succ. rewrite inject_Z_plus.
      change (inject_Z 1) with 1%Q. nra.
Qed.

Lemma crossingsFrom_bounds (rest : list Q) (prev : Q) :
  0 <= crossingsFrom prev rest <= Z.of_nat (List.length rest).
Proof.
  revert prev. induction rest as [| cur rest IH]; intros prev.
  - simpl. lia.
  - cbn [crossingsFrom List.length]. specialize (IH cur).
    destruct (crosses prev cur); lia.
Qed.

Lemma crossingsFrom_same_sign (rest : list Q) (prev : Q) :
  Forall (fun x => 0 <= x)%Q (prev :: rest) \/ Forall (fun x => x < 0)%Q (prev :: rest) ->
  crossingsFrom prev rest = 0.
Proof.
  revert prev. induction rest as [| cur rest IH]; intros prev H; [reflexivity |].
  cbn [crossingsFrom].
  assert (crosses prev cur = false) as ->.
  { unfold crosses. destruct H as [H | H];
      inversion H as [| ? ? Hp Hr]; inversion Hr as [| ? ? Hc Hr']; subst.
    - assert (JS.lt prev 0 = false) as -> by (apply lt_false; lra).
      assert (JS.lt cur 0 = false) as -> by (apply lt_false; lra).
      now rewrite andb_false_r.
    - assert (Qle_bool 0 cur = false) as ->.
      { destruct (Qle_bool 0 cur) eqn:E; [apply Qle_bool_iff in E; lra | reflexivity]. }
      assert (Qle_bool 0 prev = false) as ->.
      { destruct (Qle_bool 0 prev) eqn:E; [apply Qle_bool_iff in E; lra | reflexivity]. }
      now rewrite andb_false_r. }
  rewrite IH; [reflexivity |].
  destruct H as [H | H]; inversion H; auto.
Qed.


End ClassifierMore.

(** X4.  For a spectrum snapshot whose bins are not negative (they are
    bytes), the spectral centroid lies between 0 and the index of the last
    bin. *)
Theorem centroid_within_bins (dataArray : list Z) :
  Forall (fun d => 0 <= d <= 255) dataArray ->
  (0 <= centroidOf dataArray)%Q
  /\ (centroidOf dataArray <= inject_Z (Z.max 0 (Z.of_nat (List.length dataArray) - 1)))%Q.
Proof.
  intros H.
  assert (Forall (fun d => 0 <= d) dataArray) as H'
      by (eapply Forall_impl; [| exact H]; simpl; intros; lia).
  pose proof (spectrumSums_bounds dataArray H' 0 0 0 ltac:(lia)) as B.
  unfold centroidOf. destruct (spectrumSums 0 dataArray 0 0) as [ws tw].
  destruct B as (T & L & U).
  destruct (Z.ltb_spec 0 tw) as [P | N].
  - assert (0 < inject_Z tw)%Q as P' by (change 0%Q with (inject_Z 0); now rewrite <- Zlt_Qlt).
    split.
    + apply Qle_shift_div_l; [exact P' |]. rewrite Qmult_0_l.
      change 0%Q with (inject_Z 0). rewrite <- Zle_Qle. lia.
    + apply Qle_shift_div_r; [exact P' |]. rewrite <- inject_Z_mult, <- Zle_Qle. nia.
  - split; [lra |]. change 0%Q with (inject_Z 0). rewrite <- Zle_Qle. lia.
Qed.

Lemma centroid_within_bins_witness :
  (centroidOf [10; 0; 30; 255]%Z <= inject_Z 3)%Q.
Proof.
  apply (centroid_within_bins [10; 0; 30; 255]).
  repeat constructor; lia.
Defined.

(** X5.  The argument of [Math.sqrt] is never negative, whatever the
    samples, and it is at most 1 when the samples are normalised; so the RMS
    is [NaN] for the frame of length 0 only. *)
Theorem mean_square_bounds (inputData : list Q) (meanSquare : Q) :
  perSample (sumSquares inputData) inputData = Some meanSquare ->
  (0 <= meanSquare)%Q
  /\ (Forall (fun x => -1 <= x <= 1)%Q inputData -> (meanSquare <= 1)%Q)
  /\ forall Math_sqrt, rmsOf Math_sqrt inputData = Some (Math_sqrt meanSquare).
Proof.
  intros H. destruct inputData as [| x rest]; [discriminate |].
  cbn [perSample] in H. injection H as <-.
  pose proof (sumSquares_bounds (x :: rest)) as [B1 B2].
  assert (0 < inject_Z (Z.of_nat (List.length (x :: rest))))%Q as P.
  { change 0%Q with (inject_Z 0). rewrite <- Zlt_Qlt. cbn [List.length]. lia. }
  split; [| split].
  - apply Qle_shift_div_l; [exact P |]. rewrite Qmult_0_l. exact B1.
  - intros N. apply Qle_shift_div_r; [exact P |]. rewrite Qmult_1_l. exact (B2 N).
  - intros Math_sqrt. reflexivity.
Qed.

Lemma mean_square_bounds_witness :
  (0 <= sumSquares [1 # 2; -3 # 4] / inject_Z 2)%Q.
Proof.
  apply (mean_square_bounds [1 # 2; -3 # 4]%Q). reflexivity.
Defined.

(** X6.  The number of zero crossings of a frame is at most its length
    less one, so the zero-crossing ratio is below 1; and a frame whose
    samples are all non-negative, or all negative, has no zero crossing and
    is never classified [music_noise], whatever the spectrum. *)
Theorem zero_crossings_bounded (Math_sqrt : Q -> Q) (dataArray : list Z)
  (inputData : list Q) (this : AudioRecorder.t) :
  0 <= zeroCrossings inputData <= Z.max 0 (Z.of_nat (List.length inputData) - 1)
  /\ (forall ratio, perSample (inject_Z (zeroCrossings inputData)) inputData = Some ratio ->
                    (0 <= ratio < 1)%Q)
  /\ (Forall (fun x => 0 <= x)%Q inputData \/ Forall (fun x => x < 0)%Q inputData ->
      zeroCrossings inputData = 0
      /\ fst (fst (analyzeAudio Math_sqrt dataArray inputData this)) <> music_noise).
Proof.
  assert (0 <= zeroCrossings inputData
          <= Z.max 0 (Z.of_nat (List.length inputData) - 1)) as B.
  { destruct inputData as [| x rest]; [simpl; lia |].
    cbn [zeroCrossings List.length]. pose proof (crossingsFrom_bounds rest x). lia. }
  split; [exact B |]. split.
  - intros ratio H. destruct inputData as [| x rest]; [discriminate |].
    cbn [perSample] in H. injection H as <-. cbn [zeroCrossings] in *.
    assert (0 < inject_Z (Z.of_nat (List.length (x :: rest))))%Q as P.
    { change 0%Q with (inject_Z 0). rewrite <- Zlt_Qlt. cbn [List.length]. lia. }
    split.
    + apply Qle_shift_div_l; [exact P |]. rewrite Qmult_0_l.
      change 0%Q with (inject_Z 0). rewrite <- Zle_Qle. lia.
    + apply Qlt_shift_div_r; [exact P |]. rewrite Qmult_1_l, <- Zlt_Qlt.
      cbn [List.length] in *. lia.
  - intros S.
    assert (zeroCrossings inputData = 0) as Z0.
    { destruct inputData as [| x rest]; [reflexivity |].
      apply crossingsFrom_same_sign, S. }
    split; [exact Z0 |].
    unfold analyzeAudio. cbv zeta. rewrite Z0.
    destruct (nan_lt _ _); [discriminate |].
    destruct (analyser this); [| discriminate].
    assert (nan_gt (perSample (inject_Z 0) inputData) (3 # 10) = false) as ->.
    { destruct inputData; [reflexivity |]. cbn [perSample nan_gt].
      apply lt_false. unfold Qdiv. rewrite Qmult_0_l. lra. }
    rewrite andb_false_r. discriminate.
Qed.

Lemma zero_crossings_bounded_witness :
  fst (fst (analyzeAudio sqrt53 (repeat 0 70 ++ [255]) loudFrame capturing)) <> music_noise.
Proof.
  apply (zero_crossings_bounded sqrt53 (repeat 0 70 ++ [255]) loudFrame capturing).
  left. repeat constructor; vm_compute; discriminate.
Defined.



(** X8.  Every frame is forwarded: whatever the classification, the
    [onaudioprocess] handler ends by handing the whole encoded frame to the
    data callback, exactly once; the status it reports is the one
    [analyzeAudio] returns, which is never [unknown]. *)
Theorem every_frame_is_forwarded (Math_sqrt : Q -> Q) (dataArray : list Z)
  (inputData : list Q) (this : AudioRecorder.t) :
  let status := fst (fst (analyzeAudio Math_sqrt dataArray inputData this)) in
  let emitted := snd (onaudioprocess Math_sqrt dataArray inputData this) in
  status <> unknown
  /\ (exists before,
        emitted = before ++ [onDataAvailable (floatTo16BitPCM inputData)]
        /\ Forall (fun c => forall data, c <> onDataAvailable data) before
        /\ (hasStatusChange this = true -> In (onStatusChange status) before))
  /\ hasStatusChange (fst (onaudioprocess Math_sqrt dataArray inputData this))
     = hasStatusChange this.
Proof.
  intros status emitted. subst status emitted.
  unfold onaudioprocess, analyzeAudio. cbv zeta.
  set (vol := if hasVolumeChange this then _ else _).
  assert (Forall (fun c => forall data, c <> onDataAvailable data) vol) as Hvol.
  { subst vol. destruct (hasVolumeChange this); repeat constructor; discriminate. }
  assert (forall (b : bool) c,
            (c = console_log \/ c = console_warn) ->
            Forall (fun c => forall data, c <> onDataAvailable data)
                   (if b then [c] else [])) as Hcon.
  { intros b c [-> | ->]; destruct b; repeat constructor; discriminate. }
  assert (forall s, Forall (fun c => forall data, c <> onDataAvailable data)
                      (if hasStatusChange this then [onStatusChange s] else [])) as Hst.
  { intros s. destruct (hasStatusChange this); repeat constructor; discriminate. }
  destruct (nan_lt _ _);
    [| destruct (analyser this); [destruct (_ && _) |]];
    cbn [fst snd hasStatusChange];
    (split; [discriminate |]); (split; [| reflexivity]);
    eexists; (split; [rewrite app_assoc; reflexivity |]);
    (split; [repeat (apply Forall_app; split); auto |]);
    intros ->; apply in_or_app; right; left; reflexivity.
Qed.

Lemma every_frame_is_forwarded_witness :
  exists before,
    snd (onaudioprocess sqrt53 [0; 0] loudFrame capturing)
    = before ++ [onDataAvailable (floatTo16BitPCM loudFrame)]
    /\ In (onStatusChange speech) before.
Proof.
  destruct (every_frame_is_forwarded sqrt53 [0; 0] loudFrame capturing)
    as (_ & (before & E & _ & S) & _).
  exists before. split; [exact E | exact (S eq_refl)].
Defined.

(* ===================================================================== *)
(** * Further proofs: the two services                                    *)
(* ===================================================================== *)

(** X9.  [AudioRecorder.stop] leaves no stream, processor, input nor audio
    context, whatever was held, and is idempotent: a second [stop] changes
    nothing and does nothing to the platform. *)
Theorem recorder_stop_idempotent (this : AudioRecorder.t) :
  let stopped := fst (AudioRecorder.stop this) in
  AudioRecorder.mediaStream stopped = false
  /\ AudioRecorder.processor stopped = false
  /\ AudioRecorder.input stopped = false
  /\ AudioRecorder.audioContext stopped = false
  /\ AudioRecorder.stop stopped = (stopped, [])
  /\ (AudioRecorder.mediaStream this = false ->
      ~ In tracks_stop (snd (AudioRecorder.stop this))).
Proof.
  unfold AudioRecorder.stop. cbn. repeat split.
  intros ->. 
  destruct (AudioRecorder.processor this), (AudioRecorder.input this),
    (AudioRecorder.audioContext this); cbn; intuition discriminate.
Qed.

Lemma recorder_stop_idempotent_witness :
  ~ In tracks_stop (snd (AudioRecorder.stop (AudioRecorder.new true true))).
Proof.
  apply (recorder_stop_idempotent (AudioRecorder.new true true)). reflexivity.
Defined.


(** X11.  After [disconnect] the service is not connected, [sendAudio]
    sends nothing and a second [disconnect] does nothing.  [disconnect]
    sends the close notification and closes the socket exactly when it was
    open, the notification first; [sendAudio] sends the chunk exactly when
    the socket is open. *)
Theorem nothing_sent_after_disconnect (this : DeepgramService.t) (data : list Z) :
  let closed := fst (DeepgramService.disconnect this) in
  DeepgramService.isConnected closed = false
  /\ DeepgramService.sendAudio data closed = []
  /\ DeepgramService.disconnect closed = (closed, [])
  /\ snd (DeepgramService.disconnect this)
     = (if DeepgramService.isConnected this
        then [socket_send_CloseStream; socket_close] else [])
  /\ DeepgramService.sendAudio data this
     = (if DeepgramService.isConnected this then [socket_send_audio data] else []).
Proof.
  destruct this as [[[] |] key]; repeat split.
Qed.

Section Messages.

Import DeepgramService.

Lemma onmessage_cases (data : option Json.value) :
  onmessage data = []
  \/ onmessage data = [console_error_parsing]
  \/ exists transcript,
       Json.truthy transcript = true
       /\ exists d, data = Some d
          /\ onmessage data = [onTranscript transcript (Json.get "is_final" d)].
Proof.
  destruct data as [d |]; [| right; left; reflexivity].
  destruct d as [| b | q | s | items | members];
    try (left; reflexivity); try (right; left; reflexivity).
  unfold onmessage.
  destruct (Json.get "channel" (Json.object members)) as [c |]; [| left; reflexivity].
  destruct (Json.truthy c); [| left; reflexivity].
  destruct (Json.get "alternatives" c) as [a |]; [| left; reflexivity].
  destruct (Json.truthy a); [| left; reflexivity].
  destruct (Json.first a) as [alt |]; [| left; reflexivity].
  destruct (Json.truthy alt); [| left; reflexivity].
  destruct (Json.get "transcript" alt) as [t |]; [| left; reflexivity].
  destruct (Json.truthy t) eqn:T; [| left; reflexivity].
  right; right. exists t. split; [exact T |]. eexists. split; reflexivity.
Qed.

End Messages.

(** X12.  Whatever arrives on the socket, the [onmessage] handler makes at
    most one call; it never calls the error callback, and it never calls the
    transcript callback with an empty (falsy) transcript.  A message that is
    not JSON, or is [null], only logs. *)
Theorem onmessage_calls (data : option Json.value) :
  (List.length (DeepgramService.onmessage data) <= 1)%nat
  /\ (forall err, ~ In (DeepgramService.onError err) (DeepgramService.onmessage data))
  /\ (forall transcript is_final,
        In (DeepgramService.onTranscript transcript is_final)
           (DeepgramService.onmessage data) ->
        Json.truthy transcript = true
        /\ transcript <> Json.str ""
        /\ exists d, data = Some d /\ is_final = Json.get "is_final" d)
  /\ (data = None \/ data = Some Json.null ->
      DeepgramService.onmessage data = [DeepgramService.console_error_parsing]).
Proof.
  split; [| split; [| split]].
  - destruct (onmessage_cases data) as [E | [E | (t & T & d & -> & E)]];
      rewrite E; simpl; lia.
  - intros err H.
    destruct (onmessage_cases data) as [E | [E | (t & T & d & -> & E)]];
      rewrite E in H; simpl in H; intuition discriminate.
  - intros transcript is_final H.
    destruct (onmessage_cases data) as [E | [E | (t & T & d & -> & E)]];
      rewrite E in H; simpl in H; try solve [intuition discriminate].
    destruct H as [H | []]. injection H as <- <-.
    split; [exact T |]. split; [intros ->; discriminate T |].
    eexists. split; reflexivity.
  - intros [-> | ->]; reflexivity.
Qed.

Lemma onmessage_calls_witness :
  DeepgramService.onmessage (Some Json.null) = [DeepgramService.console_error_parsing].
Proof.
  apply (onmessage_calls (Some Json.null)). right. reflexivity.
Defined.

(** X13.  A message of the recognised shape with a non-empty transcript
    string yields exactly one call of the transcript callback, with the
    transcript of the first alternative (later alternatives and other
    members are not read) and the [is_final] member of the message. *)
Theorem recognised_message_is_delivered
  (data channel alt : Json.value) (others : list Json.value) (text : string) :
  Json.get "channel" data = Some channel ->
  Json.get "alternatives" channel = Some (Json.array (alt :: others)) ->
  Json.get "transcript" alt = Some (Json.str text) ->
  text <> ""%string ->
  DeepgramService.onmessage (Some data)
  = [DeepgramService.onTranscript (Json.str text) (Json.get "is_final" data)]
  /\ forall w,
       deliver (Some data) w
       = Some (exec (onTranscript text (Json.truthy' (Json.get "is_final" data))) w).
Proof.
  intros Hc Ha Ht Hne.
  assert (DeepgramService.onmessage (Some data)
          = [DeepgramService.onTranscript (Json.str text) (Json.get "is_final" data)]) as E.
  { destruct data; try discriminate Hc.
    destruct channel; try discriminate Ha.
    destruct alt; try discriminate Ht.
    unfold DeepgramService.onmessage. rewrite Hc. cbn [Json.truthy]. rewrite Ha.
    cbn [Json.truthy Json.first]. rewrite Ht. cbn [Json.truthy].
    destruct text; [congruence | reflexivity]. }
  split; [exact E |]. intros w. unfold deliver. rewrite E. reflexivity.
Qed.

Lemma recognised_message_is_delivered_witness :
  DeepgramService.onmessage (Some interimHello)
  = [DeepgramService.onTranscript (Json.str "hello") (Some (Json.boolean false))].
Proof.
  apply (recognised_message_is_delivered interimHello _ _ _ "hello"
           eq_refl eq_refl eq_refl).
  discriminate.
Defined.

(* ===================================================================== *)
(** * Further proofs: starting and stopping                               *)
(* ===================================================================== *)

Lemma timerRunning_app (id : positive) (log effects : list Effect) :
  timerRunning id (log ++ effects) = fold_left (timerStep id) effects (timerRunning id log).
Proof. apply fold_left_app. Qed.

Ltac world_cases rec dg timer key :=
  destruct timer as [timer |];
  destruct rec as [[[] ? ? ? ? ? ? ? ? ?] |];
  destruct dg as [[[[] |] [| ? ?]] |];
  destruct key as [| ? ?].

Ltac world_compute :=
  cbv beta iota zeta delta
    -[changesAlong edge sameConnection Str.truthy Str.trim Str.countWords isVoiceCommand
      timerRunning liveCaptures liveSockets app Pos.succ Z.sub Z.add Qdiv inject_Z
      JS.Math_floor String.append String.length fullTextOf newRecord autoInsertEffect
      transcriptUpdate clearByVoice] in *.

Ltac timers :=
  rewrite ?timerRunning_app; cbn [fold_left timerStep];
  rewrite ?Pos.eqb_refl, ?orb_true_r, ?andb_true_r, ?andb_false_r; cbn [negb andb orb].

(** X14.  When the microphone is denied, [startRecording] ends with no
    recording in progress, the connection state [disconnected], the error
    set to the message of the failure (or to a fixed text when it has none),
    the history untouched, no capture held by the recorder, the socket left
    alone and the tick timer it had started cancelled. *)
Theorem start_denied_reverts (now : Z) (message : string) (conn : SocketOutcome)
  (w : World) :
  let w' := exec (startRecording now (denied message) conn) w in
  isRecording (state w') = false
  /\ connectionState (state w') = disconnected
  /\ error (state w')
     = Some (if Str.truthy message then message else "Failed to start recording"%string)
  /\ history (state w') = history (state w)
  /\ capturingNow w' = false
  /\ liveSockets (log w') = liveSockets (log w)
  /\ serviceConnected w' = serviceConnected w
  /\ timerRunning (nextTimer w) (log w') = false.
Proof.
  destruct w as [st rd rec dg t0 timer key dev nt lg].
  world_cases rec dg timer key; destruct dev.
  all: world_compute.
  all: repeat split; try (timers; reflexivity).
  all: unfold liveSockets; rewrite ?fold_left_app; cbn [fold_left socketStep];
    repeat match goal with
      | |- context [if ?b then _ else _] => destruct b
      end; reflexivity.
Qed.

(** X15.  When the capture starts but the connection cannot be opened
    (the handshake fails, or the service has no API key and no socket is
    even created), [startRecording] ends with no recording in progress, the
    connection state [disconnected], the error set to the reason, the
    history untouched and the tick timer cancelled; the capture it had
    started is still held by the recorder. *)
Theorem start_unconnected_reverts (now sampleRate : Z) (conn : SocketOutcome) (w : World) :
  serviceConnected w = false ->
  serviceKey w = ""%string \/ conn = failed ->
  let w' := exec (startRecording now (granted sampleRate) conn) w in
  isRecording (state w') = false
  /\ connectionState (state w') = disconnected
  /\ error (state w')
     = Some (if Str.truthy (serviceKey w)
             then "WebSocket connection failed"%string
             else "Missing Deepgram API Key"%string)
  /\ history (state w') = history (state w)
  /\ serviceConnected w' = false
  /\ (serviceKey w = ""%string ->
      exists added,
        log w' = log w ++ added /\ forall rate, ~ In (new_WebSocket rate) added)
  /\ capturingNow w' = true
  /\ timerRunning (nextTimer w) (log w') = false.
Proof.
  destruct w as [st rd rec dg t0 timer key dev nt lg].
  unfold serviceConnected, serviceKey. cbn [deepgramRef apiKey log].
  intros Hc Hk.
  world_cases rec dg timer key; destruct dev, conn.
  all: try discriminate Hc.
  all: try (destruct Hk as [Hk | Hk]; discriminate Hk).
  all: world_compute.
  all: repeat split; try (timers; reflexivity).
  all: try (intros Hk'; discriminate Hk').
  all: intros _; eexists; (split; [rewrite <- ?app_assoc; reflexivity |]);
    intros rate; cbn [app];
    repeat match goal with
      | |- context [if ?b then _ else _] => destruct b
      end; cbn; intuition discriminate.
Qed.

Lemma start_unconnected_reverts_witness :
  error (state (exec (startRecording 1000 (granted 48000) opened) (initialWorld "")))
  = Some "Missing Deepgram API Key"%string
  /\ capturingNow (exec (startRecording 1000 (granted 48000) opened) (initialWorld ""))
     = true.
Proof.
  pose proof (start_unconnected_reverts 1000 48000 opened (initialWorld "")
                eq_refl (or_introl eq_refl)) as (_ & _ & E & _ & _ & _ & C & _).
  split; [exact E | exact C].
Defined.

(** X16.  When the microphone is granted and the connection is there
    (already open, or opened now with an API key), [startRecording] ends
    with the recording in progress, no error nor status message, an empty
    committed transcript, the duration at 0, the start time taken, one
    capture held, the service connected and the tick timer running under the
    identifier kept in the ref.  The connection state becomes [connected]
    when the connection was opened now; a connection that was already open
    is reused and the connection state is left as it was. *)
Theorem start_succeeds (now sampleRate : Z) (conn : SocketOutcome) (w : World) :
  serviceConnected w = true \/ (serviceKey w <> ""%string /\ conn = opened) ->
  let w' := exec (startRecording now (granted sampleRate) conn) w in
  isRecording (state w') = true
  /\ error (state w') = None
  /\ statusMessage (state w') = None
  /\ transcript (state w') = ""%string
  /\ sessionDuration (state w') = 0
  /\ startTimeRef w' = now
  /\ capturingNow w' = true
  /\ serviceConnected w' = true
  /\ connectionState (state w')
     = (if serviceConnected w then connectionState (state w) else connected)
  /\ timerIntervalRef w' = Some (nextTimer w)
  /\ timerRunning (nextTimer w) (log w') = true.
Proof.
  destruct w as [st rd rec dg t0 timer key dev nt lg].
  unfold serviceConnected, serviceKey. cbn [deepgramRef apiKey log].
  intros H.
  world_cases rec dg timer key; destruct dev, conn.
  all: cbn in H; try (destruct H as [H | [H1 H2]]; [discriminate H | congruence]).
  all: world_compute.
  all: repeat split; try (timers; reflexivity).
  all: repeat match goal with
      | |- context [if ?b then _ else _] => destruct b
      end; timers; reflexivity.
Qed.

Lemma start_succeeds_witness :
  connectionState (state (exec (startRecording 1000 (granted 48000) opened)
                               (initialWorld "key"))) = connected.
Proof.
  apply (start_succeeds 1000 48000 opened (initialWorld "key")).
  right. split; [discriminate | reflexivity].
Defined.

(** The refs after [handleStop]. *)
Lemma handleStop_refs (now : Z) (reason : option string) (w : World) :
  let w' := exec (handleStop now reason) w in
  isRecording (state w') = false
  /\ timerIntervalRef w' = None
  /\ autoInsertEffect (state w') = []
  /\ (exists r, recorderRef w' = Some r
        /\ AudioRecorder.stop r = (r, []) /\ AudioRecorder.mediaStream r = false)
  /\ (exists d, deepgramRef w' = Some d
        /\ DeepgramService.disconnect d = (d, [])
        /\ DeepgramService.isConnected d = false).
Proof.
  destruct w as [[[] tr it er cs ai hi sm au sd wc cc vo] rd rec dg t0 timer key dev nt lg].
  all: world_cases rec dg timer key.
  all: world_compute.
  all: repeat split; eexists; repeat split.
Qed.

(** X17.  After [handleStop], whatever the state before, no recording is
    in progress, the timer ref is empty, the recorder holds no stream, the
    service has no socket, and calling [handleStop] again changes neither
    the state (so no second record is added) nor anything on the platform.
    When the handles were accounted for, no capture and no socket is live
    afterwards. *)
Theorem stop_releases_and_is_idempotent (now : Z) (reason : option string) (w : World) :
  let w' := exec (handleStop now reason) w in
  isRecording (state w') = false
  /\ timerIntervalRef w' = None
  /\ capturingNow w' = false
  /\ serviceConnected w' = false
  /\ (forall now' reason',
        state (exec (handleStop now' reason') w') = state w'
        /\ log (exec (handleStop now' reason') w') = log w')
  /\ (handlesAccounted w ->
      liveCaptures (log w') = 0%nat /\ liveSockets (log w') = 0%nat).
Proof.
  intros w'.
  destruct (handleStop_refs now reason w)
    as (R & T & A & (r & Hr & Sr & Mr) & (d & Hd & Sd & Cd)).
  fold w' in R, T, A, Hr, Hd.
  split; [exact R |]. split; [exact T |].
  split; [unfold capturingNow; rewrite Hr; exact Mr |].
  split; [unfold serviceConnected; rewrite Hd; exact Cd |].
  split.
  - intros now' reason'. split.
    + rewrite handleStop_state. unfold stopUpdate. rewrite R. reflexivity.
    + rewrite handleStop_log, T, A, Hr, Hd, Sr, Sd. cbn [snd app]. apply app_nil_r.
  - intros Hacc. pose proof (handleStop_accounted now reason w Hacc) as [C S].
    fold w' in C, S. rewrite C, S, Hr, Hd, Mr, Cd. split; reflexivity.
Qed.

Lemma stop_releases_and_is_idempotent_witness :
  liveCaptures (log (exec (handleStop 6000 None) midSession)) = 0%nat
  /\ liveSockets (log (exec (handleStop 6000 None) midSession)) = 0%nat.
Proof.
  apply (stop_releases_and_is_idempotent 6000 None midSession).
  split; reflexivity.
Defined.



(* ===================================================================== *)
(** * Further proofs: invariants of runs                                  *)
(* ===================================================================== *)

Section RunsMore.

Lemma startRecording_history (now : Z) (media : MediaOutcome) (conn : SocketOutcome)
  (w : World) :
  history (state (exec (startRecording now media conn) w)) = history (state w)
  /\ recorderRef (exec (startRecording now media conn) w) <> None.
Proof.
  destruct w as [st rd rec dg t0 timer key dev nt lg].
  world_cases rec dg timer key; destruct media, conn, dev.
  all: world_compute.
  all: split; [reflexivity | discriminate].
Qed.

Lemma handleStop_history (now : Z) (reason : option string) (w : World) :
  (history (state (exec (handleStop now reason) w)) = history (state w)
   \/ exists record,
        history (state (exec (handleStop now reason) w)) = record :: history (state w))
  /\ recorderRef (exec (handleStop now reason) w) <> None.
Proof.
  split.
  - rewrite handleStop_state. unfold stopUpdate.
    destruct (isRecording (state w)); [| left; reflexivity]. cbn [negb history].
    destruct (Str.truthy _); [right; eexists; reflexivity | left; reflexivity].
  - destruct w as [st rd rec dg t0 timer key dev nt lg].
    world_cases rec dg timer key.
    all: world_compute.
    all: discriminate.
Qed.

(** An event that is not a press leaves the history and the recorder ref
    alone. *)
Lemma other_events_keep_history (w : World) (e : Event) :
  match e with click_record _ _ _ | global_ptt_toggle _ _ _ => False | _ => True end ->
  history (state (step w e)) = history (state w)
  /\ recorderRef (step w e) = recorderRef w.
Proof.
  destruct w as [st rd rec dg t0 timer key dev nt lg].
  destruct e as [now media conn | now media conn | | | id now | text isFinal
                | withError | cb]; intros H; try contradiction.
  - split; reflexivity.
  - split; reflexivity.
  - unfold step, handle. rewrite exec_read.
    destruct (timerRunning id _); split; reflexivity.
  - unfold step, handle. rewrite exec_read. cbn [deepgramRef].
    destruct dg; [| split; reflexivity].
    unfold onTranscript. rewrite exec_setState.
    destruct (isFinal && isVoiceCommand text); [| rewrite exec_ret];
      unfold transcriptUpdate; destruct isFinal; split; reflexivity.
  - world_cases rec dg timer key; destruct withError; world_compute; split; reflexivity.
  - unfold step, handle, recorderCallback. rewrite exec_read. cbn [recorderRef].
    destruct rec as [r |]; [| split; reflexivity].
    destruct (AudioRecorder.processor r); [| split; reflexivity].
    destruct cb; try (split; reflexivity).
    unfold onData, exec. cbn [deepgramRef]. destruct dg; split; reflexivity.
Qed.

Lemma step_history (w : World) (e : Event) :
  exists added,
    history (state (step w e)) = added ++ history (state w)
    /\ (List.length added <= presses [e])%nat
    /\ (recorderRef w <> None -> recorderRef (step w e) <> None).
Proof.
  destruct e as [now media conn | now media conn | | | id now | text isFinal
                | withError | cb].
  3-8: exists []; cbn [app List.length];
       edestruct other_events_keep_history as [E1 E2];
       [| rewrite E1, E2; repeat split; [lia | tauto]]; exact I.
  - unfold step, handle, toggleRecording. rewrite exec_read.
    destruct (isRecording (state w)).
    + unfold stopRecording.
      destruct (handleStop_history now None w) as [[E | [r E]] R].
      * exists []. rewrite E. repeat split; [cbn; lia | auto].
      * exists [r]. rewrite E. repeat split; [cbn; lia | auto].
    + rewrite exec_read. exists []. destruct (Str.truthy (apiKey w)).
      * destruct (startRecording_history now media conn w) as [E R].
        rewrite E. repeat split; [cbn; lia | auto].
      * destruct w. repeat split; [cbn; lia | auto].
  - unfold step, handle, handleGlobalToggle. rewrite exec_read.
    destruct (recorderRef w).
    + destruct (handleStop_history now None w) as [[E | [r E]] R].
      * exists []. rewrite E. repeat split; [cbn; lia | auto].
      * exists [r]. rewrite E. repeat split; [cbn; lia | auto].
    + destruct (startRecording_history now media conn w) as [E R].
      exists []. rewrite E. repeat split; [cbn; lia | auto].
Qed.

Lemma presses_cons (e : Event) (events : list Event) :
  presses (e :: events) = (presses [e] + presses events)%nat.
Proof. unfold presses. cbn [filter]. destruct e; reflexivity. Qed.

Lemma run_services_persist (events : list Event) (w : World) :
  recorderRef w <> None -> recorderRef (run events w) <> None.
Proof.
  revert w. induction events as [| e events IH]; intros w H; [exact H |].
  cbn [run fold_left]. apply IH.
  destruct (step_history w e) as (_ & _ & _ & P). auto.
Qed.

End RunsMore.

(** X19.  The history is only ever extended at its head: after any run it
    is the earlier history with new records in front, at most one for each
    press of the record button or of the global shortcut; no other event
    adds, removes or changes a record. *)
Theorem history_is_append_only (events : list Event) (w : World) :
  exists added,
    history (state (run events w)) = added ++ history (state w)
    /\ (List.length added <= presses events)%nat.
Proof.
  revert w. induction events as [| e events IH]; intros w.
  - exists []. split; [reflexivity | cbn; lia].
  - cbn [run fold_left]. destruct (IH (step w e)) as (later & E & L).
    destruct (step_history w e) as (first & E1 & L1 & _).
    exists (later ++ first). fold (run events (step w e)). rewrite E, E1, app_assoc.
    split; [reflexivity |]. rewrite length_app, presses_cons. lia.
Qed.

(** X20.  Once the services exist, the global shortcut only ever stops:
    the listener tests the recorder ref, which is never reset, so from the
    second press on the shortcut leaves no recording in progress, whatever
    happened in between. *)
Theorem global_shortcut_only_stops
  (key : string) (now now' : Z) (media media' : MediaOutcome)
  (conn conn' : SocketOutcome) (events : list Event) :
  let w := run (global_ptt_toggle now media conn :: events) (initialWorld key) in
  recorderRef w <> None
  /\ step w (global_ptt_toggle now' media' conn') = exec (handleStop now' None) w
  /\ isRecording (state (step w (global_ptt_toggle now' media' conn'))) = false.
Proof.
  intros w.
  assert (recorderRef w <> None) as R.
  { subst w. cbn [run fold_left]. apply run_services_persist.
    unfold step, handle, handleGlobalToggle. rewrite exec_read.
    cbn [initialWorld recorderRef]. apply startRecording_history. }
  assert (step w (global_ptt_toggle now' media' conn') = exec (handleStop now' None) w) as E.
  { unfold step, handle, handleGlobalToggle. rewrite exec_read.
    destruct (recorderRef w); [reflexivity | congruence]. }
  split; [exact R |]. split; [exact E |].
  rewrite E, handleStop_state. unfold stopUpdate.
  destruct (isRecording (state w)) eqn:I; [reflexivity | exact I].
Qed.

Section Timers.

(** Everything [startRecording] does to the platform. *)
Lemma startRecording_log (now : Z) (media : MediaOutcome) (conn : SocketOutcome)
  (w : World) :
  let w' := exec (startRecording now media conn) w in
  log w'
  = log w
      ++ match timerIntervalRef w with Some timer => [clearInterval timer] | None => [] end
      ++ [setInterval (nextTimer w)]
      ++ snd (AudioRecorder.start (selectedDeviceId w) media (recorderOf w))
      ++ match media with
         | granted sampleRate =>
             if serviceConnected w then []
             else snd (fst (DeepgramService.connect sampleRate conn (serviceOf w)))
         | denied _ => []
         end
      ++ (if startOk media conn w then []
          else [console_error; clearInterval (nextTimer w)])
  /\ isRecording (state w') = startOk media conn w.
Proof.
  destruct w as [st rd rec dg t0 timer key dev nt lg].
  world_cases rec dg timer key; destruct media, conn.
  all: cbv beta iota zeta delta
         -[app Pos.succ String.eqb]; cbn [String.eqb].
  all: rewrite <- ?app_assoc; cbn [app]; split; reflexivity.
Qed.

Lemma no_timer_in_start (id : positive) (deviceId : string) (media : MediaOutcome)
  (r : AudioRecorder.t) (running : bool) :
  fold_left (timerStep id) (snd (AudioRecorder.start deviceId media r)) running = running.
Proof.
  unfold AudioRecorder.start, AudioRecorder.stop.
  destruct (AudioRecorder.mediaStream r), (AudioRecorder.processor r),
    (AudioRecorder.input r), (AudioRecorder.audioContext r), media; reflexivity.
Qed.

Lemma no_timer_in_stop (id : positive) (r : AudioRecorder.t) (running : bool) :
  fold_left (timerStep id) (snd (AudioRecorder.stop r)) running = running.
Proof.
  unfold AudioRecorder.stop.
  destruct (AudioRecorder.mediaStream r), (AudioRecorder.processor r),
    (AudioRecorder.input r), (AudioRecorder.audioContext r); reflexivity.
Qed.

Lemma no_timer_in_connect (id : positive) (sampleRate : Z) (conn : SocketOutcome)
  (d : DeepgramService.t) (running : bool) :
  fold_left (timerStep id) (snd (fst (DeepgramService.connect sampleRate conn d))) running
  = running.
Proof.
  unfold DeepgramService.connect.
  destruct (DeepgramService.apiKey d =? "")%string, conn; reflexivity.
Qed.

Lemma no_timer_in_disconnect (id : positive) (d : DeepgramService.t) (running : bool) :
  fold_left (timerStep id) (snd (DeepgramService.disconnect d)) running = running.
Proof.
  unfold DeepgramService.disconnect.
  destruct (DeepgramService.socket d) as [[] |]; reflexivity.
Qed.

Lemma ticking_keep (w w' : World) :
  log w' = log w -> timerIntervalRef w' = timerIntervalRef w ->
  isRecording (state w') = isRecording (state w) ->
  ticking w -> ticking w'.
Proof.
  intros L T R H id. rewrite L, T, R. apply H.
Qed.

Lemma startRecording_ticking (now : Z) (media : MediaOutcome) (conn : SocketOutcome)
  (w : World) :
  ticking w -> ticking (exec (startRecording now media conn) w).
Proof.
  intros H id.
  destruct (startRecording_log now media conn w) as [L R].
  destruct (startRecording_resets now media conn w) as (_ & _ & _ & T).
  rewrite L, R, T. clear L R T.
  assert (forall running,
            fold_left (timerStep id)
              match media with
              | granted sampleRate =>
                  if serviceConnected w then []
                  else snd (fst (DeepgramService.connect sampleRate conn (serviceOf w)))
              | denied _ => []
              end running
            = running) as C.
  { intros running. destruct media; [destruct (serviceConnected w) |]; try reflexivity.
    apply no_timer_in_connect. }
  rewrite timerRunning_app, !fold_left_app, C, no_timer_in_start. clear C.
  destruct (startOk media conn w); cbn [fold_left timerStep].
  - destruct (Pos.eqb_spec (nextTimer w) id) as [-> | N].
    + intros _. split; reflexivity.
    + rewrite orb_false_r. intros F.
      destruct (timerIntervalRef w) as [t |] eqn:E; cbn [fold_left timerStep] in F.
      * apply andb_true_iff in F. destruct F as [F1 F2].
        destruct (H id F1) as [E' _]. rewrite E in E'. injection E' as ->.
        rewrite Pos.eqb_refl in F2. discriminate F2.
      * destruct (H id F) as [E' _]. rewrite E in E'. discriminate E'.
  - destruct (Pos.eqb_spec (nextTimer w) id) as [-> | N].
    + rewrite andb_false_r. discriminate.
    + rewrite orb_false_r, andb_true_r. intros F.
      destruct (timerIntervalRef w) as [t |] eqn:E; cbn [fold_left timerStep] in F.
      * apply andb_true_iff in F. destruct F as [F1 F2].
        destruct (H id F1) as [E' _]. rewrite E in E'. injection E' as ->.
        rewrite Pos.eqb_refl in F2. discriminate F2.
      * destruct (H id F) as [E' _]. rewrite E in E'. discriminate E'.
Qed.

Lemma handleStop_ticking (now : Z) (reason : option string) (w : World) :
  ticking w -> ticking (exec (handleStop now reason) w).
Proof.
  intros H id.
  destruct (handleStop_refs now reason w) as (_ & T & _).
  rewrite handleStop_log, T.
  rewrite timerRunning_app, !fold_left_app.
  assert (forall running,
            fold_left (timerStep id) (autoInsertEffect (state w)) running = running) as A.
  { intros running. unfold autoInsertEffect. destruct (_ && _); reflexivity. }
  assert (forall running,
            fold_left (timerStep id)
              match recorderRef w with
              | Some recorder => snd (AudioRecorder.stop recorder)
              | None => []
              end running = running) as B.
  { intros running. destruct (recorderRef w); [apply no_timer_in_stop | reflexivity]. }
  assert (forall running,
            fold_left (timerStep id)
              match deepgramRef w with
              | Some deepgram => snd (DeepgramService.disconnect deepgram)
              | None => []
              end running = running) as C.
  { intros running. destruct (deepgramRef w); [apply no_timer_in_disconnect | reflexivity]. }
  rewrite C, B, A. clear A B C. intros F.
  destruct (timerIntervalRef w) as [t |] eqn:E; cbn [fold_left timerStep] in F.
  - apply andb_true_iff in F. destruct F as [F1 F2].
    destruct (H id F1) as [E' _]. rewrite E in E'. injection E' as ->.
    rewrite Pos.eqb_refl in F2. discriminate F2.
  - destruct (H id F) as [E' _]. rewrite E in E'. discriminate E'.
Qed.

Lemma perform_ticking (effects : list Effect) (w : World) :
  (forall id running, fold_left (timerStep id) effects running = running) ->
  ticking w -> ticking (exec (perform effects) w).
Proof.
  intros E H id. destruct w as [st rd rec dg t0 timer key dev nt lg].
  unfold exec, perform.
  cbn [snd log timerIntervalRef state]. rewrite timerRunning_app, E. apply H.
Qed.

Lemma step_ticking (w : World) (e : Event) : ticking w -> ticking (step w e).
Proof.
  intros H.
  destruct e as [now media conn | now media conn | | | id now | text isFinal
                | withError | cb]; unfold step, handle.
  - unfold toggleRecording. rewrite exec_read. destruct (isRecording (state w)).
    + unfold stopRecording. apply handleStop_ticking, H.
    + rewrite exec_read. destruct (Str.truthy (apiKey w)).
      * apply startRecording_ticking, H.
      * apply perform_ticking; [reflexivity | exact H].
  - unfold handleGlobalToggle. rewrite exec_read. destruct (recorderRef w).
    + apply handleStop_ticking, H.
    + apply startRecording_ticking, H.
  - apply (ticking_keep w); [reflexivity | reflexivity | reflexivity | exact H].
  - apply (ticking_keep w); [reflexivity | reflexivity | reflexivity | exact H].
  - rewrite exec_read. destruct (timerRunning id (log w)); [| rewrite exec_ret; exact H].
    apply (ticking_keep w); [reflexivity | reflexivity | reflexivity | exact H].
  - rewrite exec_read. destruct (deepgramRef w); [| rewrite exec_ret; exact H].
    unfold onTranscript. rewrite exec_setState.
    destruct (isFinal && isVoiceCommand text); [| rewrite exec_ret];
      (apply (ticking_keep w); [reflexivity | reflexivity | | exact H]);
      unfold transcriptUpdate; destruct isFinal; reflexivity.
  - unfold socketDropped. rewrite exec_read.
    destruct (deepgramRef w) as [d |]; [| rewrite exec_ret; exact H].
    destruct (DeepgramService.isConnected d); [| rewrite exec_ret; exact H].
    intros id. destruct withError;
      destruct w as [st rd rec dg t0 timer key dev nt lg];
      unfold exec, bind, setDeepgram, perform, onError, setState, ret;
      cbn [snd log timerIntervalRef state isRecording];
      rewrite ?timerRunning_app; cbn [fold_left timerStep]; apply H.
  - unfold recorderCallback. rewrite exec_read.
    destruct (recorderRef w) as [r |]; [| rewrite exec_ret; exact H].
    destruct (AudioRecorder.processor r); [| rewrite exec_ret; exact H].
    destruct cb; try (rewrite exec_ret; exact H);
      try (apply (ticking_keep w); [reflexivity | reflexivity | reflexivity | exact H]).
    unfold onData, exec. destruct (deepgramRef w) as [d |]; [| exact H].
    apply (perform_ticking (DeepgramService.sendAudio data d) w); [| exact H].
    intros id running. unfold DeepgramService.sendAudio.
    destruct (DeepgramService.isConnected d); reflexivity.
Qed.

Lemma run_ticking (events : list Event) (w : World) : ticking w -> ticking (run events w).
Proof.
  revert w. induction events as [| e events IH]; intros w H; [exact H |].
  apply IH, step_ticking, H.
Qed.

End Timers.

(** X21.  In every run at most one tick timer is running, it is the one
    whose identifier is kept in the timer ref, and it runs only while a
    recording is in progress: after a stop or a failed start no timer is
    left running, so the elapsed duration is no longer updated. *)
Theorem one_tick_timer_while_recording (key : string) (events : list Event) :
  let w := run events (initialWorld key) in
  (forall id, timerRunning id (log w) = true ->
              timerIntervalRef w = Some id /\ isRecording (state w) = true)
  /\ (forall id id', timerRunning id (log w) = true -> timerRunning id' (log w) = true ->
                     id = id')
  /\ (isRecording (state w) = false ->
      forall id now, step w (timer_fires id now) = w).
Proof.
  intros w.
  assert (ticking w) as T.
  { apply run_ticking. intros id H. discriminate H. }
  split; [exact T |]. split.
  - intros id id' H H'. destruct (T id H) as [E _]. destruct (T id' H') as [E' _].
    congruence.
  - intros I id now. unfold step, handle. rewrite exec_read.
    destruct (timerRunning id (log w)) eqn:R; [| apply exec_ret].
    destruct (T id R) as [_ I']. congruence.
Qed.

Lemma one_tick_timer_while_recording_witness :
  let w := run [global_ptt_toggle 1000 (granted 48000) failed] (initialWorld "key") in
  step w (timer_fires 1 9000) = w.
Proof.
  intros w.
  apply (one_tick_timer_while_recording "key"
           [global_ptt_toggle 1000 (granted 48000) failed]).
  vm_compute. reflexivity.
Defined.



(* ===================================================================== *)
(** * Further proofs: strings                                             *)
(* ===================================================================== *)

Section Strings.

Local Open Scope string_scope.

Lemma trimStart_empty (s : string) : Str.trimStart s = "" <-> allSpaces s = true.
Proof.
  induction s as [| c rest IH]; simpl; [tauto |].
  destruct (Str.isSpace c); simpl; [exact IH | split; discriminate].
Qed.






Lemma trimEnd_head (c : ascii) (rest : string) :
  Str.isSpace c = false ->
  exists kept, Str.trimEnd (String c rest) = String c kept.
Proof.
  intros S. simpl. destruct (Str.trimEnd rest); [rewrite S |]; eexists; reflexivity.
Qed.

Lemma trimStart_fixed (s : string) :
  (forall c rest, s = String c rest -> Str.isSpace c = false) -> Str.trimStart s = s.
Proof.
  destruct s as [| c rest]; [reflexivity |]. intros H. simpl.
  now rewrite (H c rest eq_refl).
Qed.




(** *** Substrings and trimming *)


Lemma prefix_head (a c : ascii) (n s : string) :
  prefix (String a n) (String c s) = true <-> a = c /\ prefix n s = true.
Proof.
  simpl. destruct (ascii_dec a c) as [-> | N]; [tauto |].
  split; [discriminate | tauto].
Qed.

Lemma prefix_trimEnd (n s : string) :
  prefix n (Str.trimEnd s) = true -> prefix n s = true.
Proof.
  revert s. induction n as [| a n IH]; intros s H; [destruct s; reflexivity |].
  destruct s as [| c rest]; [discriminate H |].
  cbn [Str.trimEnd] in H.
  destruct (Str.trimEnd rest) as [| b kept] eqn:E.
  - destruct (Str.isSpace c); [discriminate H |].
    apply prefix_head in H. destruct H as [-> H].
    apply prefix_head. split; [reflexivity |].
    destruct n; [destruct rest; reflexivity | discriminate H].
  - apply prefix_head in H. destruct H as [-> H].
    apply prefix_head. split; [reflexivity |]. apply IH. now rewrite E.
Qed.

Lemma trimEnd_prefix (n s : string) :
  endsSolid n = true -> prefix n s = true -> prefix n (Str.trimEnd s) = true.
Proof.
  revert s. induction n as [| a n IH]; intros s S H; [discriminate S |].
  destruct s as [| c rest]; [discriminate H |].
  apply prefix_head in H. destruct H as [-> H].
  destruct n as [| b n'].
  - cbn [endsSolid] in S. apply negb_true_iff in S.
    destruct (trimEnd_head c rest S) as [kept ->]. apply prefix_head.
    split; [reflexivity | destruct kept; reflexivity].
  - assert (prefix (String b n') (Str.trimEnd rest) = true) as P by (apply IH; assumption).
    cbn [Str.trimEnd]. destruct (Str.trimEnd rest) as [| k kept]; [discriminate P |].
    apply prefix_head. split; [reflexivity | exact P].
Qed.

Lemma includes_step (n : string) (c : ascii) (s : string) :
  Str.includes n (String c s) = prefix n (String c s) || Str.includes n s.
Proof. reflexivity. Qed.

Lemma includes_trimEnd (n s : string) :
  endsSolid n = true -> Str.includes n (Str.trimEnd s) = Str.includes n s.
Proof.
  intros S. induction s as [| c rest IH].
  - reflexivity.
  - rewrite includes_step.
    destruct (prefix n (String c rest)) eqn:P.
    + pose proof (trimEnd_prefix n (String c rest) S P) as P'.
      destruct (Str.trimEnd (String c rest)) as [| a t];
        [destruct n; [discriminate S | discriminate P'] |].
      rewrite includes_step, P'. reflexivity.
    + cbn [orb]. rewrite <- IH. cbn [Str.trimEnd].
      destruct (Str.trimEnd rest) as [| b kept] eqn:E.
      * destruct (Str.isSpace c) eqn:C; [reflexivity |].
        rewrite includes_step.
        assert (prefix n (String c "") = false) as ->.
        { destruct (prefix n (String c "")) eqn:Q; [| reflexivity].
          assert (Str.trimEnd (String c rest) = String c "") as T
              by (cbn [Str.trimEnd]; now rewrite E, C).
          rewrite <- T in Q. apply prefix_trimEnd in Q. congruence. }
        reflexivity.
      * rewrite includes_step.
        assert (prefix n (String c (String b kept)) = false) as ->.
        { destruct (prefix n (String c (String b kept))) eqn:Q; [| reflexivity].
          assert (Str.trimEnd (String c rest) = String c (String b kept)) as T
              by (cbn [Str.trimEnd]; now rewrite E).
          rewrite <- T in Q. apply prefix_trimEnd in Q. congruence. }
        reflexivity.
Qed.

Lemma includes_trimStart (n s : string) (a : ascii) (n' : string) :
  n = String a n' -> Str.isSpace a = false ->
  Str.includes n (Str.trimStart s) = Str.includes n s.
Proof.
  intros -> A. induction s as [| c rest IH]; [reflexivity |].
  cbn [Str.trimStart]. destruct (Str.isSpace c) eqn:C; [| reflexivity].
  rewrite IH, includes_step.
  assert (prefix (String a n') (String c rest) = false) as ->; [| reflexivity].
  destruct (prefix (String a n') (String c rest)) eqn:P; [| reflexivity].
  apply prefix_head in P. destruct P as [-> _]. congruence.
Qed.

Lemma includes_trim (n s : string) (a : ascii) (n' : string) :
  n = String a n' -> Str.isSpace a = false -> endsSolid n = true ->
  Str.includes n (Str.trim s) = Str.includes n s.
Proof.
  intros E A S. unfold Str.trim.
  rewrite includes_trimEnd by exact S. now apply (includes_trimStart n s a n').
Qed.

Lemma lowerChar_idempotent (c : ascii) : Str.lowerChar (Str.lowerChar c) = Str.lowerChar c.
Proof.
  unfold Str.lowerChar.
  destruct ((65 <=? nat_of_ascii c)%nat && (nat_of_ascii c <=? 90)%nat) eqn:E.
  - apply andb_true_iff in E. destruct E as [E1 E2].
    apply Nat.leb_le in E1, E2.
    rewrite nat_ascii_embedding by lia.
    assert (((65 <=? nat_of_ascii c + 32)%nat && (nat_of_ascii c + 32 <=? 90)%nat) = false)
      as ->; [| reflexivity].
    apply andb_false_iff. right. apply Nat.leb_gt. lia.
  - now rewrite E.
Qed.

Lemma toLowerCase_idempotent (s : string) :
  Str.toLowerCase (Str.toLowerCase s) = Str.toLowerCase s.
Proof.
  induction s as [| c rest IH]; simpl; [reflexivity |].
  now rewrite lowerChar_idempotent, IH.
Qed.




End Strings.

(* ===================================================================== *)
(** * Further proofs: transcripts, records and the App                    *)
(* ===================================================================== *)



(** X24.  A final result is a voice command exactly when its text, in
    lower case, contains "clear transcript" or "delete everything": the
    trimming makes no difference and the case of the letters does not
    matter.  A final voice command empties the committed and the pending
    text and sets both counts to 0, and leaves the recording, the
    connection state, the history and the elapsed duration as they are. *)
Theorem voice_command_clears (text : string) (w : World) :
  isVoiceCommand text
  = Str.includes "clear transcript" (Str.toLowerCase text)
    || Str.includes "delete everything" (Str.toLowerCase text)
  /\ isVoiceCommand (Str.toLowerCase text) = isVoiceCommand text
  /\ (isVoiceCommand text = true ->
      let w' := exec (onTranscript text true) w in
      transcript (state w') = ""%string
      /\ interimTranscript (state w') = ""%string
      /\ wordCount (state w') = 0%nat
      /\ charCount (state w') = 0%nat
      /\ isRecording (state w') = isRecording (state w)
      /\ connectionState (state w') = connectionState (state w)
      /\ history (state w') = history (state w)
      /\ sessionDuration (state w') = sessionDuration (state w)
      /\ log w' = log w).
Proof.
  assert (forall t, isVoiceCommand t
                    = Str.includes "clear transcript" (Str.toLowerCase t)
                      || Str.includes "delete everything" (Str.toLowerCase t)) as E.
  { intros t. unfold isVoiceCommand. cbv zeta.
    rewrite (includes_trim "clear transcript" _ "c" "lear transcript")
      by reflexivity.
    rewrite (includes_trim "delete everything" _ "d" "elete everything")
      by reflexivity.
    reflexivity. }
  split; [apply E |]. split; [now rewrite !E, toLowerCase_idempotent |].
  intros V w'. subst w'.
  destruct w as [st rd rec dg t0 timer key dev nt lg].
  unfold exec, onTranscript, bind, setState, ret. cbn [andb]. rewrite V.
  cbn. repeat split.
Qed.

Lemma voice_command_clears_witness :
  transcript (state (exec (onTranscript "OK, Clear Transcript." true) spoken)) = ""%string.
Proof.
  apply (voice_command_clears "OK, Clear Transcript." spoken). reflexivity.
Defined.


(** X26.  Words per minute: 0 while the elapsed duration is 0 (there is no
    division by zero), and otherwise the nearest integer to
    [60 * wordCount / sessionDuration], which is never negative and never
    decreases when words are added. *)
Theorem wpm_is_rounded_rate (sessionDuration : Z) (wordCount : nat) :
  (sessionDuration <= 0 -> App.wpm sessionDuration wordCount = 0)
  /\ (0 < sessionDuration ->
      0 <= App.wpm sessionDuration wordCount
      /\ 2 * Z.abs (App.wpm sessionDuration wordCount * sessionDuration
                    - 60 * Z.of_nat wordCount)
         <= sessionDuration
      /\ forall more,
           App.wpm sessionDuration wordCount
           <= App.wpm sessionDuration (wordCount + more)).
Proof.
  unfold App.wpm. split.
  - intros H. destruct (Z.ltb_spec 0 sessionDuration); [lia | reflexivity].
  - intros H. destruct (Z.ltb_spec 0 sessionDuration); [| lia].
    assert (0 < inject_Z sessionDuration)%Q as P
        by (change 0%Q with (inject_Z 0); now rewrite <- Zlt_Qlt).
    assert (0 <= inject_Z (Z.of_nat wordCount))%Q as W
        by (change 0%Q with (inject_Z 0); rewrite <- Zle_Qle; lia).
    set (rate := (inject_Z (Z.of_nat wordCount) / inject_Z sessionDuration * 60)%Q).
    assert (rate * inject_Z sessionDuration == inject_Z (60 * Z.of_nat wordCount))%Q as R.
    { subst rate. rewrite inject_Z_mult. change (inject_Z 60) with 60%Q. field. lra. }
    assert (0 <= rate)%Q as R0.
    { subst rate. apply Qmult_le_0_compat; [| lra].
      apply Qle_shift_div_l; [exact P | lra]. }
    split; [apply Math_round_nonneg; exact R0 |]. split.
    + unfold JS.Math_round.
      pose proof (Qfloor_le (rate + (1 # 2))) as F1.
      pose proof (Qlt_floor (rate + (1 # 2))) as F2.
      set (m := Qfloor (rate + (1 # 2))) in *.
      rewrite inject_Z_plus in F2. change (inject_Z 1) with 1%Q in F2.
      assert (inject_Z m * inject_Z sessionDuration
              <= inject_Z (60 * Z.of_nat wordCount) + (1 # 2) * inject_Z sessionDuration)%Q
        as U by (rewrite <- R; nra).
      assert (inject_Z (60 * Z.of_nat wordCount) - (1 # 2) * inject_Z sessionDuration
              <= inject_Z m * inject_Z sessionDuration)%Q
        as L by (rewrite <- R; nra).
      assert (2 * (m * sessionDuration) <= 2 * (60 * Z.of_nat wordCount) + sessionDuration)
        as U'.
      { rewrite Zle_Qle, inject_Z_plus, !inject_Z_mult.
        rewrite inject_Z_mult in U. change (inject_Z 2) with 2%Q. lra. }
      assert (2 * (60 * Z.of_nat wordCount) - sessionDuration <= 2 * (m * sessionDuration))
        as L'.
      { rewrite Zle_Qle. unfold Z.sub. rewrite inject_Z_plus, inject_Z_opp, !inject_Z_mult.
        rewrite inject_Z_mult in L. change (inject_Z 2) with 2%Q. lra. }
      lia.
    + intros more. apply Math_round_monotone.
      apply Qmult_le_compat_r; [| lra].
      apply Qmult_le_compat_r; [| apply Qlt_le_weak, Qinv_lt_0_compat, P].
      rewrite <- Zle_Qle. lia.
Qed.

Lemma wpm_is_rounded_rate_witness :
  App.wpm 0 12 = 0 /\ 0 <= App.wpm 7 12.
Proof.
  split.
  - apply (wpm_is_rounded_rate 0 12). lia.
  - apply (wpm_is_rounded_rate 7 12). lia.
Defined.


(* ===================================================================== *)
(** * Further proofs: drops, the missing key and the tick                 *)
(* ===================================================================== *)

(** X28.  When the open socket is dropped by the other side, the
    controller neither stops nor reconnects: the recording flag, the
    connection state shown, the capture and the timer are left as they are,
    no socket is created, only the error is set when [onerror] fires; from
    then on the audio chunks handed over by the recorder are not sent.  A
    drop when the socket is not open changes nothing. *)
Theorem drop_is_not_recovered (withError : bool) (w : World) :
  let w' := exec (socketDropped withError) w in
  (serviceConnected w = false -> w' = w)
  /\ (serviceConnected w = true ->
      isRecording (state w') = isRecording (state w)
      /\ connectionState (state w') = connectionState (state w)
      /\ history (state w') = history (state w)
      /\ error (state w')
         = (if withError then Some "WebSocket connection error"%string
            else error (state w))
      /\ capturingNow w' = capturingNow w
      /\ timerIntervalRef w' = timerIntervalRef w
      /\ serviceConnected w' = false
      /\ log w' = log w ++ socket_dropped :: (if withError then [console_error] else [])
      /\ forall data, log (exec (onData data) w') = log w').
Proof.
  destruct w as [st rd rec dg t0 timer key dev nt lg].
  unfold serviceConnected, capturingNow. cbn [deepgramRef recorderRef].
  destruct dg as [[[[] |] k] |]; destruct withError;
    (split; [intros H; try discriminate H; reflexivity |]);
    intros H; try discriminate H;
    cbv beta iota zeta delta -[app]; rewrite <- ?app_assoc, ?app_nil_r; repeat split.
Qed.

Lemma drop_is_not_recovered_witness :
  isRecording (state (exec (socketDropped true) midSession)) = true
  /\ log (exec (onData [1; 2; 3]) (exec (socketDropped true) midSession))
     = log (exec (socketDropped true) midSession).
Proof.
  pose proof (drop_is_not_recovered true midSession) as [_ H].
  destruct (H ltac:(vm_compute; reflexivity)) as (R & _ & _ & _ & _ & _ & _ & _ & D).
  split; [rewrite R; vm_compute; reflexivity | apply D].
Defined.

Section NoKey.

Lemma no_timer_among_alerts (id : positive) (log : list Effect) :
  Forall (fun e => e = window_alert) log -> timerRunning id log = false.
Proof.
  intros L. unfold timerRunning.
  enough (forall running, running = false ->
            fold_left (timerStep id) log running = false) as G by now apply G.
  induction L as [| e rest -> _ IH]; intros running R; [exact R |].
  cbn [fold_left timerStep]. apply IH, R.
Qed.

Lemma step_untouched (w : World) (e : Event) :
  notShortcut e -> untouched w -> untouched (step w e).
Proof.
  destruct w as [st rd rec dg t0 timer key dev nt lg].
  unfold untouched. cbn [apiKey state recorderRef deepgramRef log].
  intros N (K & R & -> & -> & L). subst key.
  destruct e as [now media conn | now media conn | | | id now | text isFinal
                | withError | cb]; try contradiction.
  - unfold step, handle, toggleRecording. rewrite exec_read. cbn [state]. rewrite R.
    rewrite exec_read. cbn [apiKey Str.truthy String.eqb negb].
    cbn. repeat split; try assumption.
    apply Forall_app. split; [exact L | repeat constructor].
  - cbn. repeat split; assumption.
  - cbn. repeat split; assumption.
  - unfold step, handle. rewrite exec_read. cbn [log].
    rewrite (no_timer_among_alerts id lg L), exec_ret. repeat split; assumption.
  - cbn. repeat split; assumption.
  - cbn. repeat split; assumption.
  - cbn. repeat split; assumption.
Qed.

End NoKey.

(** X29.  Without an API key the record button never starts anything: in
    every run in which the global shortcut is not used, no recording is ever
    in progress, the services are never created, the microphone is never
    requested and no socket is opened; each press only raises an alert, and
    transcripts, recorder callbacks, drops and ticks find nothing to act
    on. *)
Theorem no_key_no_session (events : list Event) :
  Forall notShortcut events ->
  let w := run events (initialWorld "") in
  isRecording (state w) = false
  /\ connectionState (state w) = disconnected
  /\ recorderRef w = None
  /\ deepgramRef w = None
  /\ Forall (fun e => e = window_alert) (log w)
  /\ history (state w) = [].
Proof.
  intros N w.
  assert (untouched w /\ connectionState (state w) = disconnected
          /\ history (state w) = []) as ((_ & R & Hr & Hd & L) & C & Hh).
  { subst w.
    assert (untouched (initialWorld "")) as U by (repeat split; constructor).
    assert (connectionState (state (initialWorld "")) = disconnected
            /\ history (state (initialWorld "")) = []) as I by (split; reflexivity).
    revert U I. generalize (initialWorld "") as w.
    induction N as [| e events Ne _ IH]; intros w U I; [tauto |].
    cbn [run fold_left]. apply IH; [now apply step_untouched |].
    destruct I as [C Hh]. destruct U as (K & R & Hr & Hd & L).
    destruct w as [st rd rec dg t0 timer key dev nt lg].
    cbn [apiKey state recorderRef deepgramRef log] in *. subst.
    destruct e as [now media conn | now media conn | | | id now | text isFinal
                  | withError | cb]; try contradiction.
    - unfold step, handle, toggleRecording. rewrite exec_read. cbn [state]. rewrite R.
      rewrite exec_read. cbn. tauto.
    - cbn. tauto.
    - cbn. tauto.
    - unfold step, handle. rewrite exec_read. cbn [log].
      rewrite (no_timer_among_alerts id lg L), exec_ret. tauto.
    - cbn. tauto.
    - cbn. tauto.
    - cbn. tauto. }
  tauto.
Qed.

Lemma no_key_no_session_witness :
  let w := run [click_record 1000 (granted 48000) opened; timer_fires 1 2000;
                click_record 3000 (granted 48000) opened] (initialWorld "") in
  isRecording (state w) = false
  /\ connectionState (state w) = disconnected
  /\ recorderRef w = None
  /\ deepgramRef w = None
  /\ Forall (fun e => e = window_alert) (log w)
  /\ history (state w) = [].
Proof.
  apply (no_key_no_session
           [click_record 1000 (granted 48000) opened; timer_fires 1 2000;
            click_record 3000 (granted 48000) opened]).
  repeat constructor.
Defined.

(** X30.  A tick sets the elapsed duration to the whole seconds between
    the start time and now, rounded down: it is the integer [d] with
    [1000 * d <= now - start < 1000 * (d + 1)], which is not negative when
    the clock has not gone back; the recording flag, the transcript, the
    word count, the connection state and the platform are left as they
    are. *)
Theorem tick_counts_whole_seconds (now : Z) (w : World) :
  let w' := exec (tick now) w in
  let d := sessionDuration (state w') in
  d = (now - startTimeRef w) / 1000
  /\ 1000 * d <= now - startTimeRef w < 1000 * (d + 1)
  /\ (startTimeRef w <= now -> 0 <= d)
  /\ isRecording (state w') = isRecording (state w)
  /\ transcript (state w') = transcript (state w)
  /\ wordCount (state w') = wordCount (state w)
  /\ connectionState (state w') = connectionState (state w)
  /\ log w' = log w.
Proof.
  intros w' d.
  assert (d = (now - startTimeRef w) / 1000) as E.
  { subst d w'. unfold tick. rewrite exec_read. cbn.
    unfold JS.Math_floor. symmetry. apply Zdiv_Qdiv. }
  split; [exact E |]. split; [| split].
  - rewrite E. pose proof (Z.div_mod (now - startTimeRef w) 1000 ltac:(lia)).
    pose proof (Z.mod_pos_bound (now - startTimeRef w) 1000 ltac:(lia)). lia.
  - intros H. rewrite E. apply Z.div_pos; lia.
  - subst w'. destruct w. cbn. repeat split.
Qed.

Lemma tick_counts_whole_seconds_witness :
  0 <= sessionDuration (state (exec (tick 4200) midSession)).
Proof.
  apply (tick_counts_whole_seconds 4200 midSession). vm_compute. discriminate.
Defined.
